(** * String case converters: snake_case, camelCase, dot.case, kebab-case

    A shallow embedding of the four JavaScript converters of
    [basic_prompt.js] ([toSnakeCase], [toCamelCase], [toDotCase]) and
    [chain_prompt.js] ([toKebabCase]), and the properties of their
    specification.

    JavaScript strings are sequences of UTF-16 code units.  The model keeps
    the code units U+0000..U+00FF, which are Rocq's 8-bit characters: a
    [string] below is a JavaScript string all of whose code units are in
    that range.  On that range the regular-expression classes and the case
    mappings of the language are the functions given here.  Above it the
    lower-case mapping of the language is no map of code units: it can
    change the length of a string (U+0130) and can map into ASCII
    (U+212A); the statements that depend on the range say so.

    The model is of the four function declarations.  It makes no statement
    about loading the modules: [basic_prompt.js] as stored is not a
    well-formed script, since the opening of its first documentation
    comment sits at the end of the line comment of line 9. *)

From Stdlib Require Import String Ascii List Bool Arith Lia ZArith.
Import ListNotations.
Local Open Scope string_scope.
Local Open Scope nat_scope.

(** ** Characters *)

Definition code (c : ascii) : nat := nat_of_ascii c.

Definition between (lo hi : nat) (c : ascii) : bool :=
  (lo <=? code c) && (code c <=? hi).

(** [[a-z]], [[A-Z]], [[a-zA-Z]] and [\d]. *)
Definition is_lower (c : ascii) : bool := between 97 122 c.
Definition is_upper (c : ascii) : bool := between 65 90 c.
Definition is_letter (c : ascii) : bool := is_lower c || is_upper c.
Definition is_digit (c : ascii) : bool := between 48 57 c.
Definition is_alnum (c : ascii) : bool := is_letter c || is_digit c.

Definition is_underscore (c : ascii) : bool := code c =? 95.
Definition is_hyphen (c : ascii) : bool := code c =? 45.

(** [\w] is [[A-Za-z0-9_]]. *)
Definition is_word (c : ascii) : bool := is_alnum c || is_underscore c.

(** [\s]: TAB, LF, VT, FF, CR, SPACE and NO-BREAK SPACE are the white space
    and line terminator code units below U+0100.  [trim] strips the same
    set. *)
Definition is_space (c : ascii) : bool :=
  between 9 13 c || (code c =? 32) || (code c =? 160).

(** ASCII punctuation: the printable ASCII characters that are neither
    letters, digits nor the space. *)
Definition is_punct (c : ascii) : bool :=
  between 33 47 c || between 58 64 c || between 91 96 c || between 123 126 c.

(** The character classes of the regular expressions of the source. *)

(** [[^\w\s-]] *)
Definition is_special (c : ascii) : bool :=
  negb (is_word c || is_space c || is_hyphen c).

(** [[\s_-]] *)
Definition is_separator (c : ascii) : bool :=
  is_space c || is_underscore c || is_hyphen c.

(** [[\s_]] *)
Definition is_space_or_underscore (c : ascii) : bool :=
  is_space c || is_underscore c.

(** [[^\w-]] *)
Definition is_not_word_or_hyphen (c : ascii) : bool :=
  negb (is_word c || is_hyphen c).

(** Lower-case mapping of one code unit: A-Z, and the Latin-1 capitals
    U+00C0..U+00DE without the multiplication sign U+00D7. *)
Definition lower_char (c : ascii) : ascii :=
  if is_upper c || (between 192 222 c && negb (code c =? 215))
  then ascii_of_nat (code c + 32)
  else c.

(** Upper-case mapping of one code unit: a-z, and the Latin-1 small
    letters U+00E0..U+00FE without the division sign U+00F7.  The upper
    cases of U+00B5, U+00DF and U+00FF are not code units of the range, and
    the three are left as they are: the source applies [toUpperCase] to the
    first character of a word only, which is an ASCII letter or digit
    ([camelWords_words] below). *)
Definition upper_char (c : ascii) : ascii :=
  if is_lower c || (between 224 254 c && negb (code c =? 247))
  then ascii_of_nat (code c - 32)
  else c.

(** ** String built-ins *)

Fixpoint map_chars (f : ascii -> ascii) (s : string) : string :=
  match s with
  | EmptyString => EmptyString
  | String c t => String (f c) (map_chars f t)
  end.

Fixpoint all_chars (p : ascii -> bool) (s : string) : bool :=
  match s with
  | EmptyString => true
  | String c t => p c && all_chars p t
  end.

Definition is_empty (s : string) : bool :=
  match s with
  | EmptyString => true
  | String _ _ => false
  end.

(** [s.toLowerCase()] and [s.toUpperCase()], on strings of code units
    below U+0100: there the lower-case mapping is the map of [lower_char]
    over the code units. *)
Definition toLowerCase (s : string) : string := map_chars lower_char s.
Definition toUpperCase (s : string) : string := map_chars upper_char s.

(** [s.charAt(0)] and [s.slice(1)] *)
Definition charAt0 (s : string) : string :=
  match s with
  | EmptyString => EmptyString
  | String c _ => String c EmptyString
  end.

Definition slice1 (s : string) : string :=
  match s with
  | EmptyString => EmptyString
  | String _ t => t
  end.

(** Removal of the leading run, and of the trailing run, of characters of
    a class. *)
Fixpoint drop_leading (p : ascii -> bool) (s : string) : string :=
  match s with
  | EmptyString => EmptyString
  | String c t => if p c then drop_leading p t else s
  end.

Fixpoint drop_trailing (p : ascii -> bool) (s : string) : string :=
  match s with
  | EmptyString => EmptyString
  | String c t =>
      let t' := drop_trailing p t in
      if p c && is_empty t' then EmptyString else String c t'
  end.

(** [s.trim()] *)
Definition trim (s : string) : string :=
  drop_trailing is_space (drop_leading is_space s).

(** [s.replace(/[cls]/g, "")]: every character of the class is removed. *)
Fixpoint remove_all (p : ascii -> bool) (s : string) : string :=
  match s with
  | EmptyString => EmptyString
  | String c t => if p c then remove_all p t else String c (remove_all p t)
  end.

(** [s.replace(/[cls]+/g, by)]: the scan goes from left to right, and every
    maximal run of characters of the class is replaced by [by].  [in_run]
    tells that the previous character belonged to the run being replaced. *)
Fixpoint replace_runs_from (p : ascii -> bool) (by_ : string) (in_run : bool)
    (s : string) : string :=
  match s with
  | EmptyString => EmptyString
  | String c t =>
      if p c
      then (if in_run then EmptyString else by_) ++ replace_runs_from p by_ true t
      else String c (replace_runs_from p by_ false t)
  end.

Definition replace_runs (p : ascii -> bool) (by_ : string) (s : string) : string :=
  replace_runs_from p by_ false s.

(** [s.replace(/([p])([q])/g, '$1-$2')]: at each position, from left to
    right, a character of [p] followed by a character of [q] is a match;
    a hyphen is put between the two and the scan resumes after the match. *)
Fixpoint hyphenate (p q : ascii -> bool) (s : string) : string :=
  match s with
  | EmptyString => EmptyString
  | String a t =>
      match t with
      | EmptyString => String a EmptyString
      | String b t' =>
          if p a && q b
          then String a (String "-" (String b (hyphenate p q t')))
          else String a (hyphenate p q t)
      end
  end.

(** [s.split(/[cls]+/)]: the pieces between the maximal runs of characters
    of the class, empty pieces at both ends included; the empty string
    splits into one empty piece. *)
Fixpoint split_from (p : ascii -> bool) (in_run : bool) (s : string)
    : list string :=
  match s with
  | EmptyString => [EmptyString]
  | String c t =>
      if p c
      then (if in_run then split_from p true t
            else EmptyString :: split_from p true t)
      else match split_from p false t with
           | w :: ws => String c w :: ws
           | [] => [String c EmptyString]
           end
  end.

Definition split (p : ascii -> bool) (s : string) : list string :=
  split_from p false s.

(** [words.map((word, index) => f word index)] *)
Fixpoint mapi_from {A B : Type} (f : A -> nat -> B) (i : nat) (l : list A)
    : list B :=
  match l with
  | [] => []
  | x :: r => f x i :: mapi_from f (S i) r
  end.

Definition mapi {A B : Type} (f : A -> nat -> B) (l : list A) : list B :=
  mapi_from f 0 l.

(** [words.join(sep)] *)
Definition join (sep : string) (words : list string) : string :=
  String.concat sep words.

(** ** Effects

    A call runs in the state shared by the whole program, the global
    bindings and the console, and either returns or throws. *)

Inductive exn : Type :=
  | Error (message : string)   (* [throw new Error(message)] *)
  | TypeError.                 (* raised by the runtime itself *)

Inductive completion (A : Type) : Type :=
  | Return (a : A)
  | Throw (e : exn).

Arguments Return {A} a.
Arguments Throw {A} e.

Inductive number : Type :=
  | NaN
  | Num (z : Z).

(** The primitive values, as the global bindings hold them. *)
Inductive primitive : Type :=
  | PUndefined
  | PNull
  | PBoolean (b : bool)
  | PNumber (n : number)
  | PString (s : string).

Record Store : Type := mkStore {
  globals : list (string * primitive);
  console : list string
}.

Definition M (A : Type) : Type := Store -> completion A * Store.

Definition ret {A : Type} (a : A) : M A := fun st => (Return a, st).

Definition throw {A : Type} (e : exn) : M A := fun st => (Throw e, st).

Definition bind {A B : Type} (m : M A) (k : A -> M B) : M B :=
  fun st =>
    match m st with
    | (Return a, st') => k a st'
    | (Throw e, st') => (Throw e, st')
    end.

Notation "x <- m ;; k" := (bind m (fun x => k))
  (at level 61, m at next level, right associativity).

(** [console.log(s)] *)
Definition console_log (s : string) : M unit :=
  fun st => (Return tt, mkStore (globals st) (console st ++ [s])%list).

(** ** Values *)

(** The call [o.trim()] of the [trim] method of an object: code of the
    caller, which runs in the shared state, may change it and may throw.
    The model keeps the methods that return a primitive string, as
    [String.prototype.trim] does on a String object. *)
Definition method : Type := M string.

(** The values a caller can pass.  An object, or a function, is described
    by the one property the converters ever reach, its [trim]: [None] when
    it has no callable [trim] (plain objects, arrays, functions), and the
    method when it has one (String objects, objects of the caller). *)
Inductive value : Type :=
  | VNull
  | VUndefined
  | VBoolean (b : bool)
  | VNumber (n : number)
  | VBigInt (z : Z)
  | VString (s : string)
  | VSymbol (description : string)
  | VObject (trim_method : option method)
  | VFunction (trim_method : option method).

(** [typeof v] *)
Definition typeof (v : value) : string :=
  match v with
  | VNull => "object"
  | VUndefined => "undefined"
  | VBoolean _ => "boolean"
  | VNumber _ => "number"
  | VBigInt _ => "bigint"
  | VString _ => "string"
  | VSymbol _ => "symbol"
  | VObject _ => "object"
  | VFunction _ => "function"
  end.

(** Truthiness; [!v] is [negb (to_boolean v)]. *)
Definition to_boolean (v : value) : bool :=
  match v with
  | VNull | VUndefined => false
  | VBoolean b => b
  | VNumber NaN => false
  | VNumber (Num z) => negb (z =? 0)%Z
  | VBigInt z => negb (z =? 0)%Z
  | VString s => negb (is_empty s)
  | VSymbol _ | VObject _ | VFunction _ => true
  end.

Definition EmptyInput : exn :=
  Error "Input cannot be an empty or whitespace-only string".
Definition NoValidCharacters : exn :=
  Error "Input contains no valid characters to convert".

(** ** The converters *)

(** [basic_prompt.js], [toSnakeCase].  There is no validation.
    [str.trim()] on [null] or [undefined], or on a value without a callable
    [trim], makes the runtime raise a [TypeError]; on an object that has
    one the method runs, and what it returns goes through
    [.toLowerCase().replace(/\s+/g, '_')]. *)
Definition toSnakeCase (str : value) : M string :=
  match str with
  | VString s => ret (replace_runs is_space "_" (toLowerCase (trim s)))
  | VObject (Some trim_method) | VFunction (Some trim_method) =>
      trimmed <- trim_method ;;
      ret (replace_runs is_space "_" (toLowerCase trimmed))
  | _ => throw TypeError
  end.


(** The words of [toCamelCase] and of [toDotCase]:
    [input.replace(/[^\w\s-]/g, "").split(/[\s_-]+/).filter(w => w.length > 0)] *)
Definition nonempty (w : string) : bool := 0 <? String.length w.

Definition camelWords (input : string) : list string :=
  filter nonempty (split is_separator (remove_all is_special input)).

Definition dotWords (input : string) : list string :=
  filter nonempty (split is_separator (remove_all is_special input)).

(** [index === 0 ? word.toLowerCase()
               : word.charAt(0).toUpperCase() + word.slice(1).toLowerCase()] *)
Definition camelWord (word : string) (index : nat) : string :=
  if index =? 0 then toLowerCase word
  else toUpperCase (charAt0 word) ++ toLowerCase (slice1 word).

(** [basic_prompt.js], [toCamelCase].  The branches of the match are the
    tests [input === null], [input === undefined] and
    [typeof input !== "string"], in that order. *)
Definition toCamelCase (input : value) : M string :=
  match input with
  | VNull => throw (Error "Input cannot be null")
  | VUndefined => throw (Error "Input cannot be undefined")
  | VString s =>
      if String.length (trim s) =? 0
      then throw (Error "Input cannot be an empty or whitespace-only string")
      else
        let words := camelWords s in
        if List.length words =? 0
        then throw (Error "Input contains no valid characters to convert")
        else ret (join "" (mapi camelWord words))
  | other => throw (Error ("Input must be a string, received " ++ typeof other))
  end.

(** [basic_prompt.js], [toDotCase]. *)
Definition toDotCase (input : value) : M string :=
  match input with
  | VNull => throw (Error "Input cannot be null")
  | VUndefined => throw (Error "Input cannot be undefined")
  | VString s =>
      if String.length (trim s) =? 0
      then throw (Error "Input cannot be an empty or whitespace-only string")
      else
        let words := dotWords s in
        if List.length words =? 0
        then throw (Error "Input contains no valid characters to convert")
        else ret (join "." (map toLowerCase words))
  | other => throw (Error ("Input must be a string, received " ++ typeof other))
  end.

(** [chain_prompt.js], [toKebabCase]: the chain of replacements on a
    non-empty string. *)
Definition kebabChain (str : string) : string :=
  let s1 := hyphenate is_lower is_upper str in          (* /([a-z])([A-Z])/g *)
  let s2 := hyphenate is_letter is_digit s1 in          (* /([a-zA-Z])(\d)/g *)
  let s3 := hyphenate is_digit is_letter s2 in          (* /(\d)([a-zA-Z])/g *)
  let s4 := replace_runs is_space_or_underscore "-" s3 in  (* /[\s_]+/g *)
  let s5 := remove_all is_not_word_or_hyphen s4 in      (* /[^\w-]/g *)
  let s6 := toLowerCase s5 in
  let s7 := replace_runs is_hyphen "-" s6 in            (* /-+/g *)
  drop_trailing is_hyphen (drop_leading is_hyphen s7).  (* /^-+|-+$/g *)

(** [if (!str || typeof str !== 'string') return '';] *)
Definition toKebabCase (str : value) : M string :=
  if negb (to_boolean str) || negb (typeof str =? "string")%string then ret ""
  else
    match str with
    | VString s => ret (kebabChain s)
    | _ => ret ""
    end.

Definition empty_store : Store := mkStore [] [].


(** ** Notions of the statements *)

Definition none_of (p : ascii -> bool) : ascii -> bool := fun c => negb (p c).

Definition is_dot (c : ascii) : bool := code c =? 46.

(** The string has no white space character. *)
Definition no_whitespace (s : string) : bool := all_chars (none_of is_space) s.

(** No character of [p] is immediately followed by one of [q]. *)
Fixpoint no_pair_after (p q : ascii -> bool) (prev : ascii) (s : string) : bool :=
  match s with
  | EmptyString => true
  | String c t => negb (p prev && q c) && no_pair_after p q c t
  end.

Definition no_pair (p q : ascii -> bool) (s : string) : bool :=
  match s with
  | EmptyString => true
  | String c t => no_pair_after p q c t
  end.

(** A word with its first character in upper case and the others in lower
    case. *)
Definition capitalized (w : string) : string :=
  match w with
  | EmptyString => EmptyString
  | String c t => String (upper_char c) (toLowerCase t)
  end.

(** A text made of a first word and of further words, each after a run of
    separators. *)
Fixpoint phrase (w0 : string) (rest : list (string * string)) : string :=
  match rest with
  | [] => w0
  | (sep, w) :: rest' => w0 ++ sep ++ phrase w rest'
  end.

Definition is_a_word (w : string) : bool :=
  negb (is_empty w) && all_chars is_alnum w.

Definition is_a_separator_run (sep : string) : bool :=
  negb (is_empty sep) && all_chars is_separator sep.

Definition well_formed_phrase (w0 : string) (rest : list (string * string)) : bool :=
  is_a_word w0 &&
  forallb (fun p => is_a_separator_run (fst p) && is_a_word (snd p)) rest.

(** A call whose completion does not depend on the shared state, and which
    leaves that state as it found it. *)
Definition pure_call {A B : Type} (f : A -> M B) : Prop :=
  forall (a : A) (st1 st2 : Store),
    fst (f a st1) = fst (f a st2) /\ snd (f a st1) = st1.

(** Converting the output of a conversion again gives that output. *)
Definition idempotent_at (f : value -> M string) (s : string) : Prop :=
  forall st o st',
    f (VString s) st = (Return o, st') ->
    forall st2, f (VString o) st2 = (Return o, st2).

Definition is_empty_list {A : Type} (l : list A) : bool :=
  match l with
  | [] => true
  | _ :: _ => false
  end.

(** The characters of an output of [toKebabCase]. *)
Definition is_kebab_char (c : ascii) : bool :=
  is_lower c || is_digit c || is_hyphen c.

(** [a] followed by the first character of [s] is not a pair of [p] and
    [q]. *)
Definition head_ok (p q : ascii -> bool) (a : ascii) (s : string) : bool :=
  match s with
  | EmptyString => true
  | String c _ => negb (p a && q c)
  end.

(** The string is empty or begins with a character of the class. *)
Definition starts_with (p : ascii -> bool) (s : string) : bool :=
  match s with
  | EmptyString => true
  | String c _ => p c
  end.





(** A piece of a text is what stands between two runs of separators: a
    non-empty string without white space, underscore or hyphen. *)
Definition is_a_piece (w : string) : bool :=
  negb (is_empty w) && all_chars (none_of is_separator) w.

Definition pieces_between_separators (p0 : string)
    (rest : list (string * string)) : bool :=
  is_a_piece p0 &&
  forallb (fun x => is_a_separator_run (fst x) && is_a_piece (snd x)) rest.

(** The rendering of [toCamelCase]: the first word in lower case, the
    others with their first character in upper case and the rest in
    lower case, nothing in between. *)
Definition camelRendering (words : list string) : string :=
  match words with
  | [] => EmptyString
  | w0 :: ws => toLowerCase w0 ++ join "" (map capitalized ws)
  end.

(** [a] put in front of the first string of a list. *)
Definition cons_head (a : string) (l : list string) : list string :=
  match l with
  | [] => [a]
  | w :: ws => (a ++ w) :: ws
  end.


Definition the_converters : list (value -> M string) :=
  [toSnakeCase; toCamelCase; toDotCase; toKebabCase].

(** ** Notions of the further properties *)

(** The text is empty or made of white space only. *)
Definition is_blank (s : string) : bool := all_chars is_space s.

(** The text has an ASCII letter or digit. *)
Definition has_alnum (s : string) : bool :=
  negb (all_chars (none_of is_alnum) s).




(** The text after the three insertions of hyphens that begin the chain of
    [toKebabCase]. *)
Definition kebabBoundaries (str : string) : string :=
  hyphenate is_digit is_letter
    (hyphenate is_letter is_digit (hyphenate is_lower is_upper str)).

(** The characters of an output of [toDotCase]. *)
Definition is_dot_char (c : ascii) : bool :=
  is_lower c || is_digit c || is_dot c.

(** The joints of a text: the places between two characters none of which
    is a hyphen. *)
Definition joint (a : ascii) (s : string) : nat :=
  match s with
  | EmptyString => 0
  | String c _ => if negb (is_hyphen a) && negb (is_hyphen c) then 1 else 0
  end.

Fixpoint joints (s : string) : nat :=
  match s with
  | EmptyString => 0
  | String c t => joint c t + joints t
  end.

(** * Properties *)

(** ** Characters: facts checked on the 256 code units *)

Ltac each_char c :=
  destruct c as [[] [] [] [] [] [] [] []]; vm_compute;
  first [ reflexivity | discriminate | intros; discriminate | intros; reflexivity ].

Lemma lower_char_idem c : lower_char (lower_char c) = lower_char c.
Proof. each_char c. Qed.

Lemma lower_char_space c : is_space (lower_char c) = is_space c.
Proof. each_char c. Qed.

Lemma lower_char_letter c : is_letter (lower_char c) = is_letter c.
Proof. each_char c. Qed.

Lemma lower_char_digit c : is_digit (lower_char c) = is_digit c.
Proof. each_char c. Qed.

Lemma lower_char_alnum c : is_alnum (lower_char c) = is_alnum c.
Proof. each_char c. Qed.

Lemma upper_char_alnum c : is_alnum c = true -> is_alnum (upper_char c) = true.
Proof. each_char c. Qed.

Lemma lower_char_hyphen c : is_hyphen (lower_char c) = is_hyphen c.
Proof. each_char c. Qed.

Lemma alnum_not_space c : is_alnum c = true -> is_space c = false.
Proof. each_char c. Qed.

Lemma alnum_not_separator c : is_alnum c = true -> is_separator c = false.
Proof. each_char c. Qed.

Lemma alnum_not_special c : is_alnum c = true -> is_special c = false.
Proof. each_char c. Qed.

Lemma kept_word_char c :
  is_special c = false -> is_separator c = false -> is_alnum c = true.
Proof. each_char c. Qed.

Lemma separator_not_special c : is_separator c = true -> is_special c = false.
Proof. each_char c. Qed.

Lemma punct_not_space c : is_punct c = true -> is_space c = false.
Proof. each_char c. Qed.

Lemma punct_not_alnum c : is_punct c = true -> is_alnum c = false.
Proof. each_char c. Qed.

Lemma punct_lower c : is_punct c = true -> lower_char c = c.
Proof. each_char c. Qed.

Lemma hyphen_eq c : is_hyphen c = true -> c = "-"%char.
Proof. each_char c. Qed.

Lemma digit_not_letter c : is_digit c = true -> is_letter c = false.
Proof. each_char c. Qed.

Lemma letter_not_digit c : is_letter c = true -> is_digit c = false.
Proof. each_char c. Qed.

(** ** Strings: the classes of the characters of a string *)

Lemma length_zero s : (String.length s =? 0) = is_empty s.
Proof. destruct s; reflexivity. Qed.

Lemma nonempty_not_empty w : nonempty w = negb (is_empty w).
Proof. destruct w; reflexivity. Qed.


Lemma append_empty_r s : s ++ "" = s.
Proof. induction s as [|c t IH]; simpl; [|rewrite IH]; reflexivity. Qed.

Lemma append_assoc s t u : (s ++ t) ++ u = s ++ (t ++ u).
Proof. induction s as [|c s IH]; simpl; [|rewrite IH]; reflexivity. Qed.

Lemma all_chars_app p s t :
  all_chars p (s ++ t) = all_chars p s && all_chars p t.
Proof.
  induction s as [|c s IH]; simpl; [reflexivity|].
  rewrite IH, andb_assoc. reflexivity.
Qed.

Lemma all_chars_weaken p q s :
  (forall c, p c = true -> q c = true) ->
  all_chars p s = true -> all_chars q s = true.
Proof.
  intros Hpq. induction s as [|c s IH]; simpl; [reflexivity|].
  intros H. apply andb_true_iff in H as [Hc Hs].
  rewrite (Hpq c Hc), (IH Hs). reflexivity.
Qed.

Lemma all_chars_both p q s :
  all_chars p s = true -> all_chars q s = true ->
  all_chars (fun c => p c && q c) s = true.
Proof.
  induction s as [|c s IH]; simpl; [reflexivity|].
  intros Hp Hq.
  apply andb_true_iff in Hp as [Hp1 Hp2].
  apply andb_true_iff in Hq as [Hq1 Hq2].
  rewrite Hp1, Hq1, (IH Hp2 Hq2). reflexivity.
Qed.

Lemma all_chars_map p f s :
  all_chars p (map_chars f s) = all_chars (fun c => p (f c)) s.
Proof.
  induction s as [|c s IH]; simpl; [|rewrite IH]; reflexivity.
Qed.

Lemma map_chars_fixed f s :
  all_chars (fun c => Ascii.eqb (f c) c) s = true -> map_chars f s = s.
Proof.
  induction s as [|c s IH]; simpl; [reflexivity|].
  intros H. apply andb_true_iff in H as [Hc Hs].
  apply Ascii.eqb_eq in Hc. rewrite Hc, (IH Hs). reflexivity.
Qed.

Lemma toLowerCase_idem s : toLowerCase (toLowerCase s) = toLowerCase s.
Proof.
  unfold toLowerCase. induction s as [|c s IH]; simpl; [reflexivity|].
  rewrite lower_char_idem, IH. reflexivity.
Qed.

Lemma toLowerCase_app s t : toLowerCase (s ++ t) = toLowerCase s ++ toLowerCase t.
Proof.
  unfold toLowerCase. induction s as [|c s IH]; simpl; [|rewrite IH]; reflexivity.
Qed.

(** ** Strings: removal of a class *)

Lemma remove_all_none p s :
  all_chars (none_of p) s = true -> remove_all p s = s.
Proof.
  unfold none_of. induction s as [|c s IH]; simpl; [reflexivity|].
  intros H. apply andb_true_iff in H as [Hc Hs].
  apply negb_true_iff in Hc. rewrite Hc, (IH Hs). reflexivity.
Qed.

Lemma remove_all_keeps q p s :
  all_chars q s = true -> all_chars q (remove_all p s) = true.
Proof.
  induction s as [|c s IH]; simpl; [reflexivity|].
  intros H. apply andb_true_iff in H as [Hc Hs].
  destruct (p c); simpl; [|rewrite Hc]; auto.
Qed.

Lemma remove_all_clean p s : all_chars (none_of p) (remove_all p s) = true.
Proof.
  unfold none_of. induction s as [|c s IH]; simpl; [reflexivity|].
  destruct (p c) eqn:Hc; simpl; [|rewrite Hc]; auto.
Qed.

Lemma remove_all_app p s t :
  remove_all p (s ++ t) = remove_all p s ++ remove_all p t.
Proof.
  induction s as [|c s IH]; simpl; [reflexivity|].
  destruct (p c); simpl; rewrite IH; reflexivity.
Qed.

(** ** Strings: replacement of the runs of a class *)

Lemma replace_runs_none p by_ b s :
  all_chars (none_of p) s = true -> replace_runs_from p by_ b s = s.
Proof.
  unfold none_of. revert b. induction s as [|c s IH]; simpl; [reflexivity|].
  intros b H. apply andb_true_iff in H as [Hc Hs].
  apply negb_true_iff in Hc. rewrite Hc, (IH false Hs). reflexivity.
Qed.

Lemma replace_runs_keeps q p by_ b s :
  all_chars q by_ = true -> all_chars q s = true ->
  all_chars q (replace_runs_from p by_ b s) = true.
Proof.
  intros Hby. revert b. induction s as [|c s IH]; simpl; [reflexivity|].
  intros b H. apply andb_true_iff in H as [Hc Hs].
  destruct (p c).
  - rewrite all_chars_app, (IH true Hs). destruct b; simpl; [|rewrite Hby]; reflexivity.
  - simpl. rewrite Hc, (IH false Hs). reflexivity.
Qed.

Lemma replace_runs_clean p by_ b s :
  all_chars (none_of p) by_ = true ->
  all_chars (none_of p) (replace_runs_from p by_ b s) = true.
Proof.
  intros Hby. revert b. induction s as [|c s IH]; simpl; [reflexivity|].
  intros b. destruct (p c) eqn:Hc.
  - rewrite all_chars_app, (IH true). destruct b; simpl; [|rewrite Hby]; reflexivity.
  - simpl. unfold none_of at 1. rewrite Hc, (IH false). reflexivity.
Qed.

(** ** Strings: removal of leading and trailing runs *)

Lemma drop_leading_all p s : all_chars p s = true -> drop_leading p s = "".
Proof.
  induction s as [|c s IH]; simpl; [reflexivity|].
  intros H. apply andb_true_iff in H as [Hc Hs]. rewrite Hc. auto.
Qed.

Lemma drop_leading_keeps q p s :
  all_chars q s = true -> all_chars q (drop_leading p s) = true.
Proof.
  induction s as [|c s IH]; simpl; [reflexivity|].
  intros H. destruct (p c); [|exact H].
  apply andb_true_iff in H as [_ Hs]. auto.
Qed.

Lemma drop_trailing_keeps q p s :
  all_chars q s = true -> all_chars q (drop_trailing p s) = true.
Proof.
  induction s as [|c s IH]; simpl; [reflexivity|].
  intros H. apply andb_true_iff in H as [Hc Hs].
  destruct (p c && is_empty (drop_trailing p s)); simpl; [reflexivity|].
  rewrite Hc. auto.
Qed.

Lemma drop_leading_none p s :
  all_chars (none_of p) s = true -> drop_leading p s = s.
Proof.
  unfold none_of. destruct s as [|c s]; simpl; [reflexivity|].
  intros H. apply andb_true_iff in H as [Hc _].
  apply negb_true_iff in Hc. rewrite Hc. reflexivity.
Qed.

Lemma drop_trailing_none p s :
  all_chars (none_of p) s = true -> drop_trailing p s = s.
Proof.
  unfold none_of. induction s as [|c s IH]; simpl; [reflexivity|].
  intros H. apply andb_true_iff in H as [Hc Hs].
  apply negb_true_iff in Hc. rewrite Hc, (IH Hs). reflexivity.
Qed.

Lemma all_chars_drop_leading p s :
  all_chars p (drop_leading p s) = all_chars p s.
Proof.
  induction s as [|c s IH]; simpl; [reflexivity|].
  destruct (p c) eqn:Hc; simpl; [exact IH | rewrite Hc; reflexivity].
Qed.

Lemma is_empty_drop_trailing p s :
  is_empty (drop_trailing p s) = all_chars p s.
Proof.
  induction s as [|c s IH]; simpl; [reflexivity|].
  destruct (p c); simpl; [|reflexivity].
  rewrite <- IH. destruct (is_empty (drop_trailing p s)); reflexivity.
Qed.

(** [trim] leaves nothing exactly of the strings of white space. *)
Lemma trim_empty s : is_empty (trim s) = all_chars is_space s.
Proof.
  unfold trim. rewrite is_empty_drop_trailing. apply all_chars_drop_leading.
Qed.

Lemma trim_none s : all_chars (none_of is_space) s = true -> trim s = s.
Proof.
  intros H. unfold trim. rewrite (drop_leading_none _ _ H).
  apply drop_trailing_none, H.
Qed.

(** ** Strings: splitting and joining *)

Lemma split_all p b s :
  all_chars p s = true -> filter nonempty (split_from p b s) = [].
Proof.
  revert b. induction s as [|c s IH]; simpl; intros b H; [reflexivity|].
  apply andb_true_iff in H as [Hc Hs]. rewrite Hc.
  destruct b; simpl; apply IH, Hs.
Qed.

Lemma split_pieces q p b s :
  all_chars q s = true ->
  Forall (fun w => all_chars (fun c => q c && negb (p c)) w = true)
         (split_from p b s).
Proof.
  revert b. induction s as [|c s IH]; simpl; intros b H.
  - constructor; [reflexivity | constructor].
  - apply andb_true_iff in H as [Hc Hs]. destruct (p c) eqn:Hp.
    + destruct b; [apply IH, Hs | constructor; [reflexivity | apply IH, Hs]].
    + specialize (IH false Hs). destruct (split_from p false s) as [|w ws].
      * constructor; [simpl; rewrite Hc, Hp; reflexivity | constructor].
      * inversion IH; subst. constructor; [|assumption].
        simpl. rewrite Hc, Hp. simpl. assumption.
Qed.

Lemma join_cons_empty w ws : join "" (w :: ws) = w ++ join "" ws.
Proof.
  unfold join. destruct ws as [|x r]; simpl; [symmetry; apply append_empty_r | reflexivity].
Qed.

Lemma join_keeps q sep ws :
  all_chars q sep = true ->
  Forall (fun w => all_chars q w = true) ws ->
  all_chars q (join sep ws) = true.
Proof.
  intros Hsep H. unfold join. induction H as [|w ws Hw Hws IH]; simpl; [reflexivity|].
  destruct ws as [|x r]; [assumption|].
  rewrite !all_chars_app, Hw, Hsep. simpl. exact IH.
Qed.

Lemma mapi_from_Forall {A B} (P : A -> Prop) (Q : B -> Prop) (f : A -> nat -> B) i l :
  (forall x n, P x -> Q (f x n)) -> Forall P l -> Forall Q (mapi_from f i l).
Proof.
  intros Hf H. revert i. induction H as [|x l Hx Hl IH]; simpl; intros i; constructor; auto.
Qed.

Lemma mapi_from_succ (f : string -> nat -> string) (g : string -> string) i l :
  (forall x n, f x (S n) = g x) -> mapi_from f (S i) l = map g l.
Proof.
  intros Hf. revert i. induction l as [|x l IH]; simpl; intros i; [reflexivity|].
  rewrite Hf, IH. reflexivity.
Qed.

(** ** The words of [toCamelCase] and [toDotCase] *)

Lemma camelWords_words s :
  Forall (fun w => is_a_word w = true) (camelWords s).
Proof.
  unfold camelWords, is_a_word, split.
  pose proof (split_pieces (none_of is_special) is_separator false
                (remove_all is_special s) (remove_all_clean _ _)) as H.
  induction H as [|w ws Hw Hws IH]; simpl; [constructor|].
  destruct (nonempty w) eqn:Hn; [|exact IH].
  constructor; [|exact IH]. rewrite <- nonempty_not_empty, Hn. simpl.
  revert Hw. apply all_chars_weaken. intros c Hc.
  apply andb_true_iff in Hc as [H1 H2]. unfold none_of in H1.
  apply negb_true_iff in H1, H2. apply kept_word_char; assumption.
Qed.

Lemma dotWords_camelWords s : dotWords s = camelWords s.
Proof. reflexivity. Qed.

Lemma camelWord_succ w n : camelWord w (S n) = capitalized w.
Proof. destruct w; reflexivity. Qed.

Lemma camelWord_alnum w n :
  all_chars is_alnum w = true -> all_chars is_alnum (camelWord w n) = true.
Proof.
  intros H. destruct n as [|n].
  - unfold camelWord, toLowerCase. simpl. rewrite all_chars_map.
    revert H. apply all_chars_weaken. intros c Hc. rewrite lower_char_alnum. exact Hc.
  - rewrite camelWord_succ. destruct w as [|c t]; [reflexivity|]. simpl in *.
    apply andb_true_iff in H as [Hc Ht]. rewrite (upper_char_alnum _ Hc). simpl.
    unfold toLowerCase. rewrite all_chars_map.
    revert Ht. apply all_chars_weaken. intros d Hd. rewrite lower_char_alnum. exact Hd.
Qed.

Lemma word_alnum w : is_a_word w = true -> all_chars is_alnum w = true.
Proof. unfold is_a_word. intros H. apply andb_true_iff in H. tauto. Qed.

Lemma word_nonempty w : is_a_word w = true -> is_empty w = false.
Proof.
  unfold is_a_word. intros H. apply andb_true_iff in H as [H _].
  apply negb_true_iff in H. exact H.
Qed.

(** ** Running the converters *)

Lemma typeof_string v : typeof v = "string" <-> exists s, v = VString s.
Proof.
  split.
  - destruct v; simpl; intros H; try discriminate. eauto.
  - intros [s ->]. reflexivity.
Qed.

Lemma toCamelCase_string s st :
  toCamelCase (VString s) st =
  if all_chars is_space s then (Throw EmptyInput, st)
  else if is_empty_list (camelWords s) then (Throw NoValidCharacters, st)
  else (Return (join "" (mapi camelWord (camelWords s))), st).
Proof.
  unfold toCamelCase. rewrite length_zero, trim_empty.
  destruct (all_chars is_space s); [reflexivity|].
  destruct (camelWords s); reflexivity.
Qed.

Lemma toDotCase_string s st :
  toDotCase (VString s) st =
  if all_chars is_space s then (Throw EmptyInput, st)
  else if is_empty_list (dotWords s) then (Throw NoValidCharacters, st)
  else (Return (join "." (map toLowerCase (dotWords s))), st).
Proof.
  unfold toDotCase. rewrite length_zero, trim_empty.
  destruct (all_chars is_space s); [reflexivity|].
  destruct (dotWords s); reflexivity.
Qed.

Lemma toKebabCase_string s st :
  toKebabCase (VString s) st = (Return (kebabChain s), st).
Proof. destruct s; reflexivity. Qed.

Lemma toKebabCase_other v st :
  typeof v <> "string" -> toKebabCase v st = (Return "", st).
Proof.
  intros H. unfold toKebabCase.
  destruct (negb (to_boolean v)); simpl; [reflexivity|].
  destruct v; try reflexivity. exfalso. apply H. reflexivity.
Qed.




(** ** Insertion of hyphens *)

Lemma no_pair_none p q s :
  all_chars (none_of p) s = true -> no_pair p q s = true.
Proof.
  unfold none_of. destruct s as [|a s]; [reflexivity|]. simpl.
  revert a. induction s as [|b s IH]; simpl; intros a H; [reflexivity|].
  apply andb_true_iff in H as [Ha Hs]. apply negb_true_iff in Ha.
  rewrite Ha. simpl. apply IH, Hs.
Qed.

Lemma hyphenate_no_pair p q s :
  no_pair p q s = true -> hyphenate p q s = s.
Proof.
  induction s as [|a t IH]; [reflexivity|].
  destruct t as [|b t']; [reflexivity|].
  intros H. simpl in H. apply andb_true_iff in H as [Hab Ht].
  apply negb_true_iff in Hab.
  change (hyphenate p q (String a (String b t')))
    with (if p a && q b
          then String a (String "-" (String b (hyphenate p q t')))
          else String a (hyphenate p q (String b t'))).
  rewrite Hab, (IH Ht). reflexivity.
Qed.

Lemma hyphenate_keeps r p q s :
  r "-"%char = true -> all_chars r s = true ->
  all_chars r (hyphenate p q s) = true.
Proof.
  intros Hh.
  assert (H : forall n s, String.length s <= n ->
                all_chars r s = true -> all_chars r (hyphenate p q s) = true).
  { induction n as [|n IH]; intros [|a [|b t]] Hn Hs; simpl in *; try lia; auto.
    apply andb_true_iff in Hs as [Ha Hs]. apply andb_true_iff in Hs as [Hb Ht].
    destruct (p a && q b); simpl.
    - rewrite Ha, Hh, Hb. simpl. apply IH; [lia | exact Ht].
    - rewrite Ha. simpl.
      apply (IH (String b t)); [simpl; lia | simpl; rewrite Hb; exact Ht]. }
  intros Hs. apply (H (String.length s)); [lia | exact Hs].
Qed.

(** ** Texts without a letter or a digit *)

Lemma no_alnum_char_separator c :
  is_alnum c = false -> is_special c = false -> is_separator c = true.
Proof. each_char c. Qed.

Lemma no_alnum_char_hyphen c :
  is_alnum c = false -> is_space_or_underscore c = false ->
  is_not_word_or_hyphen c = false -> is_hyphen c = true.
Proof. each_char c. Qed.

Lemma camelWords_no_alnum s :
  all_chars (none_of is_alnum) s = true -> camelWords s = [].
Proof.
  intros H. unfold camelWords, split. apply split_all.
  pose proof (all_chars_both _ _ _
                (remove_all_keeps _ is_special _ H) (remove_all_clean is_special s)) as K.
  revert K. apply all_chars_weaken. intros c Hc.
  apply andb_true_iff in Hc as [H1 H2]. unfold none_of in *.
  apply negb_true_iff in H1, H2. apply no_alnum_char_separator; assumption.
Qed.

Lemma kebabChain_hyphens s :
  all_chars is_hyphen s = true ->
  drop_trailing is_hyphen
    (drop_leading is_hyphen (replace_runs is_hyphen "-" (toLowerCase s))) = "".
Proof.
  intros H. rewrite drop_leading_all; [reflexivity|].
  apply replace_runs_keeps; [reflexivity|].
  unfold toLowerCase. rewrite all_chars_map.
  revert H. apply all_chars_weaken. intros c Hc. rewrite lower_char_hyphen. exact Hc.
Qed.

Lemma alnum_classes c :
  is_alnum c = false -> is_lower c = false /\ is_letter c = false /\ is_digit c = false.
Proof.
  unfold is_alnum, is_letter. intros H.
  apply orb_false_iff in H as [H1 H2]. apply orb_false_iff in H1 as [H0 H1].
  rewrite H0, H1, H2. auto.
Qed.

Lemma kebabChain_no_alnum s :
  all_chars (none_of is_alnum) s = true -> kebabChain s = "".
Proof.
  intros H. unfold kebabChain.
  assert (Hp : forall p : ascii -> bool,
             (forall c, is_alnum c = false -> p c = false) ->
             all_chars (none_of p) s = true).
  { intros p Hp. revert H. apply all_chars_weaken. unfold none_of. intros c Hc.
    apply negb_true_iff in Hc. rewrite (Hp c Hc). reflexivity. }
  rewrite (hyphenate_no_pair is_lower is_upper s)
    by (apply no_pair_none, Hp; intros c Hc; apply (alnum_classes c Hc)).
  rewrite (hyphenate_no_pair is_letter is_digit s)
    by (apply no_pair_none, Hp; intros c Hc; apply (alnum_classes c Hc)).
  rewrite (hyphenate_no_pair is_digit is_letter s)
    by (apply no_pair_none, Hp; intros c Hc; apply (alnum_classes c Hc)).
  apply kebabChain_hyphens.
  unfold replace_runs.
  assert (K' : all_chars
                 (fun c => none_of is_alnum c && none_of is_space_or_underscore c)
                 (remove_all is_not_word_or_hyphen
                    (replace_runs_from is_space_or_underscore "-" false s)) = true).
  { apply remove_all_keeps. apply all_chars_both.
    - apply replace_runs_keeps; [reflexivity | exact H].
    - apply replace_runs_clean. reflexivity. }
  pose proof (all_chars_both _ _ _ K'
    (remove_all_clean is_not_word_or_hyphen
       (replace_runs_from is_space_or_underscore "-" false s))) as K.
  revert K. apply all_chars_weaken. intros c Hc. unfold none_of in Hc.
  apply andb_true_iff in Hc as [Hc H3]. apply andb_true_iff in Hc as [H1 H2].
  apply negb_true_iff in H1, H2, H3. apply no_alnum_char_hyphen; assumption.
Qed.

Lemma space_not_alnum s :
  all_chars is_space s = true -> all_chars (none_of is_alnum) s = true.
Proof.
  apply all_chars_weaken. intros c Hc. unfold none_of.
  destruct (is_alnum c) eqn:E; [|reflexivity].
  rewrite (alnum_not_space c E) in Hc. discriminate.
Qed.

Lemma punct_no_alnum s :
  all_chars is_punct s = true -> all_chars (none_of is_alnum) s = true.
Proof.
  apply all_chars_weaken. intros c Hc. unfold none_of.
  rewrite (punct_not_alnum c Hc). reflexivity.
Qed.

(** ** Validation *)








(** ** The examples of the source *)

(** C2 (defect of the code): [toDotCase] puts no boundary between a
    lower-case letter and the upper-case letter after it.  The documented
    result of [toDotCase("HelloWorld")] is ["hello.world"]; the code returns
    ["helloworld"].  The two other examples are as documented. *)
Theorem toDotCase_examples st :
  toDotCase (VString "HelloWorld") st = (Return "helloworld", st) /\
  toDotCase (VString "hello world") st = (Return "hello.world", st) /\
  toDotCase (VString "hello world! test") st = (Return "hello.world.test", st).
Proof. repeat split; reflexivity. Qed.

(** C3 (defect of the code): [toKebabCase] puts its boundaries after a
    lower-case letter followed by an upper-case one, between letters and
    digits and at the runs of white space and underscores, and puts none
    between two upper-case letters.  The
    documented result of [toKebabCase("HTTPSConnection")] is
    ["https-connection"]; the code returns ["httpsconnection"].  The two
    other examples are as documented. *)
Theorem toKebabCase_examples st :
  toKebabCase (VString "HTTPSConnection") st = (Return "httpsconnection", st) /\
  toKebabCase (VString "helloWorld") st = (Return "hello-world", st) /\
  toKebabCase (VString "user_full name!") st = (Return "user-full-name", st).
Proof. repeat split; reflexivity. Qed.

(** ** Texts of punctuation *)

(** C5, as amended.  On a non-empty string of punctuation characters
    alone, [toCamelCase] and [toDotCase] raise NoValidCharacters,
    [toKebabCase] raises nothing and returns the empty string, and
    [toSnakeCase] returns the string itself, which is not empty. *)
Theorem punctuation_only s st :
  is_empty s = false -> all_chars is_punct s = true ->
  toCamelCase (VString s) st = (Throw NoValidCharacters, st) /\
  toDotCase (VString s) st = (Throw NoValidCharacters, st) /\
  toKebabCase (VString s) st = (Return "", st) /\
  toSnakeCase (VString s) st = (Return s, st).
Proof.
  intros Hne Hp.
  assert (Hsp : all_chars (none_of is_space) s = true).
  { revert Hp. apply all_chars_weaken. intros c Hc. unfold none_of.
    rewrite (punct_not_space c Hc). reflexivity. }
  assert (Hblank : all_chars is_space s = false).
  { destruct s as [|c t]; [discriminate|]. simpl in *.
    apply andb_true_iff in Hsp as [Hc _]. unfold none_of in Hc.
    apply negb_true_iff in Hc. rewrite Hc. reflexivity. }
  split; [|split; [|split]].
  - rewrite toCamelCase_string, Hblank, (camelWords_no_alnum s (punct_no_alnum s Hp)).
    reflexivity.
  - rewrite toDotCase_string, Hblank, dotWords_camelWords,
      (camelWords_no_alnum s (punct_no_alnum s Hp)).
    reflexivity.
  - rewrite toKebabCase_string, (kebabChain_no_alnum s (punct_no_alnum s Hp)).
    reflexivity.
  - unfold toSnakeCase, ret. rewrite (trim_none s Hsp).
    assert (Hl : toLowerCase s = s).
    { apply map_chars_fixed. revert Hp. apply all_chars_weaken.
      intros c Hc. rewrite (punct_lower c Hc). apply Ascii.eqb_refl. }
    rewrite Hl. unfold replace_runs. rewrite (replace_runs_none _ _ _ _ Hsp).
    reflexivity.
Qed.

Lemma punctuation_only_witness :
  toCamelCase (VString "!!!") empty_store = (Throw NoValidCharacters, empty_store) /\
  toDotCase (VString "!!!") empty_store = (Throw NoValidCharacters, empty_store) /\
  toKebabCase (VString "!!!") empty_store = (Return "", empty_store) /\
  toSnakeCase (VString "!!!") empty_store = (Return "!!!", empty_store).
Proof. apply (punctuation_only "!!!" empty_store); reflexivity. Defined.

(** C5 as stated fails: [toKebabCase("!!!")] raises nothing, it returns
    the empty string. *)
Lemma toKebabCase_punctuation_returns :
  toKebabCase (VString "!!!") empty_store = (Return "", empty_store) /\
  toKebabCase (VString "!!!") empty_store <> (Throw NoValidCharacters, empty_store).
Proof. split; [reflexivity | discriminate]. Qed.

(** ** The characters of the outputs *)

Lemma kebab_char_lower c :
  is_not_word_or_hyphen c = false -> is_space_or_underscore c = false ->
  is_kebab_char (lower_char c) = true.
Proof. each_char c. Qed.

Lemma kebab_char_not_space c : is_kebab_char c = true -> is_space c = false.
Proof. each_char c. Qed.

Lemma alnum_or_dot_not_space c :
  is_alnum c || is_dot c = true -> is_space c = false.
Proof. each_char c. Qed.

Lemma kebabChain_chars s : all_chars is_kebab_char (kebabChain s) = true.
Proof.
  unfold kebabChain.
  apply drop_trailing_keeps, drop_leading_keeps.
  apply replace_runs_keeps; [reflexivity|].
  unfold toLowerCase. rewrite all_chars_map.
  match goal with |- all_chars _ (remove_all _ ?t) = true => set (s4 := t) end.
  pose proof (all_chars_both _ _ _
                (remove_all_clean is_not_word_or_hyphen s4)
                (remove_all_keeps (none_of is_space_or_underscore)
                   is_not_word_or_hyphen s4
                   (replace_runs_clean is_space_or_underscore "-" false _ eq_refl)))
    as K.
  revert K. apply all_chars_weaken. intros c Hc. unfold none_of in Hc.
  apply andb_true_iff in Hc as [H1 H2]. apply negb_true_iff in H1, H2.
  apply kebab_char_lower; assumption.
Qed.

Lemma camel_output_alnum s :
  all_chars is_alnum (join "" (mapi camelWord (camelWords s))) = true.
Proof.
  apply join_keeps; [reflexivity|]. unfold mapi.
  apply (mapi_from_Forall (fun w => is_a_word w = true)); [|apply camelWords_words].
  intros w n Hw. apply camelWord_alnum, word_alnum, Hw.
Qed.

Lemma lowered_words_alnum s :
  Forall (fun w => all_chars is_alnum w = true) (map toLowerCase (camelWords s)).
Proof.
  pose proof (camelWords_words s) as H.
  induction H as [|w ws Hw Hws IH]; simpl; constructor; [|exact IH].
  apply (camelWord_alnum w 0), word_alnum, Hw.
Qed.

Lemma dot_output_chars s :
  all_chars (fun c => is_alnum c || is_dot c)
    (join "." (map toLowerCase (dotWords s))) = true.
Proof.
  apply join_keeps; [reflexivity|]. rewrite dotWords_camelWords.
  pose proof (lowered_words_alnum s) as H.
  induction H as [|w ws Hw Hws IH]; constructor; [|exact IH].
  revert Hw. apply all_chars_weaken. intros c Hc. rewrite Hc. reflexivity.
Qed.

(** C7: whenever one of the four converters returns a string, that string
    has no white space character. *)
Theorem output_has_no_whitespace f v st o st' :
  In f the_converters ->
  f v st = (Return o, st') ->
  no_whitespace o = true.
Proof.
  unfold the_converters, no_whitespace. simpl.
  intros [<- | [<- | [<- | [<- | []]]]] H.
  - destruct v as [| |b|n|z|s|d|[m|]|[m|]]; try discriminate H;
      unfold toSnakeCase, bind, ret in H;
      try (destruct (m st) as [[t|e] st'']; [|discriminate H]);
      injection H as <- _; apply replace_runs_clean; reflexivity.
  - destruct v; try discriminate H. rewrite toCamelCase_string in H.
    destruct (all_chars is_space s); [discriminate|].
    destruct (is_empty_list (camelWords s)); [discriminate|].
    injection H as <- _. generalize (camel_output_alnum s).
    apply all_chars_weaken. intros c Hc. unfold none_of.
    rewrite (alnum_not_space c Hc). reflexivity.
  - destruct v; try discriminate H. rewrite toDotCase_string in H.
    destruct (all_chars is_space s); [discriminate|].
    destruct (is_empty_list (dotWords s)); [discriminate|].
    injection H as <- _. generalize (dot_output_chars s).
    apply all_chars_weaken. intros c Hc. unfold none_of.
    rewrite (alnum_or_dot_not_space c Hc). reflexivity.
  - assert (Ho : o = "" \/ o = kebabChain match v with VString s => s | _ => "" end).
    { destruct v as [| |b|n|z|s|d|m|m];
        try (rewrite toKebabCase_other in H by discriminate;
             injection H as <- _; left; reflexivity).
      rewrite toKebabCase_string in H. injection H as <- _. right. reflexivity. }
    destruct Ho as [-> | ->]; [reflexivity|].
    generalize (kebabChain_chars match v with VString s => s | _ => "" end).
    apply all_chars_weaken. intros c Hc. unfold none_of.
    rewrite (kebab_char_not_space c Hc). reflexivity.
Qed.

Lemma output_has_no_whitespace_witness :
  no_whitespace "hello_world_!" = true.
Proof.
  apply (output_has_no_whitespace toSnakeCase (VString "  Hello   World !  ")
           empty_store "hello_world_!" empty_store).
  - simpl. left. reflexivity.
  - reflexivity.
Defined.

(** ** Purity *)

Lemma console_log_writes : ~ pure_call console_log.
Proof.
  intros H. destruct (H "x" empty_store empty_store) as [_ K]. discriminate K.
Qed.








(** ** The guard of [toKebabCase] *)

(** C9: [toKebabCase] returns the empty string, and raises nothing, on
    every falsy value, [null], [undefined] and the empty string among them,
    and on every value that is not a string. *)
Theorem toKebabCase_guard v st :
  to_boolean v = false \/ typeof v <> "string" ->
  toKebabCase v st = (Return "", st).
Proof.
  intros [H | H]; [|apply toKebabCase_other, H].
  unfold toKebabCase. rewrite H. reflexivity.
Qed.

Lemma toKebabCase_guard_witness :
  toKebabCase (VString "") empty_store = (Return "", empty_store) /\
  toKebabCase VNull empty_store = (Return "", empty_store) /\
  toKebabCase VUndefined empty_store = (Return "", empty_store) /\
  toKebabCase (VNumber (Num 42)) empty_store = (Return "", empty_store).
Proof.
  split; [apply (toKebabCase_guard (VString "") empty_store); left; reflexivity|].
  split; [apply (toKebabCase_guard VNull empty_store); left; reflexivity|].
  split; [apply (toKebabCase_guard VUndefined empty_store); left; reflexivity|].
  apply (toKebabCase_guard (VNumber (Num 42)) empty_store); right; discriminate.
Defined.

(** ** [toCamelCase] and [toDotCase] side by side *)

(** C10: on every input [toCamelCase] fails exactly when [toDotCase]
    fails, then with the same error and message; when they return, the
    input is a string and both render the same sequence of words. *)
Theorem camel_and_dot_agree v st :
  match fst (toCamelCase v st), fst (toDotCase v st) with
  | Throw e1, Throw e2 => e1 = e2
  | Return c, Return d =>
      exists s words,
        v = VString s /\ camelWords s = words /\ dotWords s = words /\
        words <> [] /\
        c = join "" (mapi camelWord words) /\
        d = join "." (map toLowerCase words)
  | _, _ => False
  end.
Proof.
  destruct v; try reflexivity.
  rewrite toCamelCase_string, toDotCase_string.
  change (dotWords s) with (camelWords s).
  destruct (all_chars is_space s); [reflexivity|].
  destruct (camelWords s) as [|w ws] eqn:E; [reflexivity|]. simpl.
  exists s, (w :: ws). change (dotWords s) with (camelWords s).
  repeat split; try assumption. discriminate.
Qed.

(** ** Splitting a text of words and separator runs *)

Section Splitting.

Variable p : ascii -> bool.

Let pieces (b : bool) (s : string) : list string :=
  filter nonempty (split_from p b s).

Lemma split_head_empty s :
  starts_with p s = true ->
  split_from p false s = "" :: tl (split_from p false s).
Proof.
  destruct s as [|c t]; simpl; [reflexivity|]. intros ->. reflexivity.
Qed.

Lemma split_word b w s :
  all_chars (none_of p) w = true -> is_empty w = false ->
  starts_with p s = true ->
  split_from p b (w ++ s) = w :: tl (split_from p false s).
Proof.
  unfold none_of. intros Hw Hne Hs. revert b.
  induction w as [|c w IH]; [discriminate|]. intros b.
  simpl in Hw. apply andb_true_iff in Hw as [Hc Hw]. apply negb_true_iff in Hc.
  simpl. rewrite Hc. destruct w as [|d w'].
  - simpl. rewrite (split_head_empty s Hs). reflexivity.
  - rewrite (IH Hw eq_refl false). reflexivity.
Qed.

Lemma pieces_word b w s :
  all_chars (none_of p) w = true -> is_empty w = false ->
  starts_with p s = true ->
  pieces b (w ++ s) = w :: pieces false s.
Proof.
  intros Hw Hne Hs. unfold pieces.
  rewrite (split_word b w s Hw Hne Hs), (split_head_empty s Hs). simpl.
  rewrite nonempty_not_empty, Hne. reflexivity.
Qed.

Lemma pieces_run b sep s :
  all_chars p sep = true -> is_empty sep = false ->
  pieces b (sep ++ s) = pieces true s.
Proof.
  intros Hsep Hne. revert b. induction sep as [|c sep IH]; [discriminate|].
  intros b. simpl in Hsep. apply andb_true_iff in Hsep as [Hc Hsep].
  assert (Hstep : pieces b (String c (sep ++ s)) = pieces true (sep ++ s)).
  { unfold pieces. simpl. rewrite Hc. destruct b; reflexivity. }
  simpl. rewrite Hstep. destruct sep as [|d sep']; [reflexivity|].
  apply IH; [exact Hsep | reflexivity].
Qed.

Lemma pieces_run_or_nothing b sep s :
  all_chars p sep = true ->
  exists b', pieces b (sep ++ s) = pieces b' s.
Proof.
  intros Hsep. destruct sep as [|c sep'] eqn:E.
  - exists b. reflexivity.
  - exists true. apply pieces_run; [exact Hsep | reflexivity].
Qed.

Lemma starts_with_app sep s :
  all_chars p sep = true -> is_empty sep = false ->
  starts_with p (sep ++ s) = true.
Proof.
  destruct sep as [|c sep']; [discriminate|]. simpl.
  intros H _. apply andb_true_iff in H. tauto.
Qed.

Lemma starts_with_all s : all_chars p s = true -> starts_with p s = true.
Proof.
  destruct s as [|c t]; simpl; [reflexivity|].
  intros H. apply andb_true_iff in H. tauto.
Qed.

Variable is_piece : string -> bool.
Hypothesis piece_chars :
  forall w, is_piece w = true -> all_chars (none_of p) w = true.
Hypothesis piece_nonempty :
  forall w, is_piece w = true -> is_empty w = false.

Lemma pieces_phrase b w0 rest post :
  is_piece w0 = true ->
  forallb (fun x => (negb (is_empty (fst x)) && all_chars p (fst x))
                    && is_piece (snd x)) rest = true ->
  all_chars p post = true ->
  pieces b (phrase w0 rest ++ post) = w0 :: map snd rest.
Proof.
  intros Hw0 Hrest Hpost. revert b w0 Hw0.
  induction rest as [|[sep w] rest' IH]; intros b w0 Hw0; simpl.
  - rewrite pieces_word; auto using starts_with_all.
    unfold pieces. rewrite (split_all p false post Hpost). reflexivity.
  - simpl in Hrest. apply andb_true_iff in Hrest as [Hx Hrest'].
    apply andb_true_iff in Hx as [Hsep Hw].
    apply andb_true_iff in Hsep as [Hne Hsep]. apply negb_true_iff in Hne.
    rewrite !append_assoc.
    rewrite pieces_word; auto using starts_with_app.
    rewrite pieces_run; auto.
    rewrite (IH Hrest' true w Hw). reflexivity.
Qed.

End Splitting.

(** ** [toCamelCase] on words and separator runs *)

Lemma word_no_separator w :
  is_a_word w = true -> all_chars (none_of is_separator) w = true.
Proof.
  intros H. generalize (word_alnum w H). apply all_chars_weaken.
  intros c Hc. unfold none_of. rewrite (alnum_not_separator c Hc). reflexivity.
Qed.

Lemma phrase_head w0 rest : exists tail, phrase w0 rest = w0 ++ tail.
Proof.
  destruct rest as [|[sep w] rest'].
  - exists "". symmetry. apply append_empty_r.
  - exists (sep ++ phrase w rest'). reflexivity.
Qed.

Lemma phrase_not_special w0 rest :
  well_formed_phrase w0 rest = true ->
  all_chars (none_of is_special) (phrase w0 rest) = true.
Proof.
  unfold well_formed_phrase. intros H. apply andb_true_iff in H as [Hw0 Hrest].
  assert (Hword : forall w, is_a_word w = true ->
                    all_chars (none_of is_special) w = true).
  { intros w Hw. generalize (word_alnum w Hw). apply all_chars_weaken.
    intros c Hc. unfold none_of. rewrite (alnum_not_special c Hc). reflexivity. }
  revert w0 Hw0. induction rest as [|[sep w] rest' IH]; intros w0 Hw0; simpl.
  - apply Hword, Hw0.
  - simpl in Hrest. apply andb_true_iff in Hrest as [Hx Hrest'].
    apply andb_true_iff in Hx as [Hsep Hw]. unfold is_a_separator_run in Hsep.
    apply andb_true_iff in Hsep as [_ Hsep].
    rewrite !all_chars_app, (Hword w0 Hw0), (IH Hrest' w Hw), andb_true_r. simpl.
    revert Hsep. apply all_chars_weaken. intros c Hc. unfold none_of.
    rewrite (separator_not_special c Hc). reflexivity.
Qed.

Lemma separators_not_special s :
  all_chars is_separator s = true -> all_chars (none_of is_special) s = true.
Proof.
  apply all_chars_weaken. intros c Hc. unfold none_of.
  rewrite (separator_not_special c Hc). reflexivity.
Qed.

Lemma camelWords_phrase pre w0 rest post :
  all_chars is_separator pre = true ->
  well_formed_phrase w0 rest = true ->
  all_chars is_separator post = true ->
  camelWords (pre ++ phrase w0 rest ++ post) = w0 :: map snd rest.
Proof.
  intros Hpre Hwf Hpost. unfold camelWords, split.
  rewrite remove_all_none.
  2:{ rewrite !all_chars_app, (separators_not_special pre Hpre),
        (phrase_not_special w0 rest Hwf), (separators_not_special post Hpost).
      reflexivity. }
  destruct (pieces_run_or_nothing is_separator false pre
              (phrase w0 rest ++ post) Hpre) as [b' ->].
  unfold well_formed_phrase in Hwf. apply andb_true_iff in Hwf as [Hw0 Hrest].
  apply (pieces_phrase is_separator is_a_word word_no_separator word_nonempty);
    assumption.
Qed.

Lemma phrase_not_blank pre w0 rest post :
  is_a_word w0 = true ->
  all_chars is_separator pre = true ->
  all_chars is_space (pre ++ phrase w0 rest ++ post) = false.
Proof.
  intros Hw0 Hpre. destruct (phrase_head w0 rest) as [tail ->].
  rewrite !all_chars_app.
  pose proof (word_nonempty w0 Hw0) as Hne. pose proof (word_alnum w0 Hw0) as Ha.
  destruct w0 as [|c t]; [discriminate|]. simpl in *.
  apply andb_true_iff in Ha as [Hc _]. rewrite (alnum_not_space c Hc). simpl.
  apply andb_false_r.
Qed.

Lemma toCamelCase_phrase pre w0 rest post st :
  all_chars is_separator pre = true ->
  well_formed_phrase w0 rest = true ->
  all_chars is_separator post = true ->
  toCamelCase (VString (pre ++ phrase w0 rest ++ post)) st =
  (Return (toLowerCase w0 ++ join "" (map capitalized (map snd rest))), st).
Proof.
  intros Hpre Hwf Hpost.
  rewrite toCamelCase_string, (camelWords_phrase pre w0 rest post Hpre Hwf Hpost).
  unfold well_formed_phrase in Hwf. apply andb_true_iff in Hwf as [Hw0 _].
  rewrite (phrase_not_blank pre w0 rest post Hw0 Hpre).
  cbn [is_empty_list]. unfold mapi. cbn [mapi_from].
  rewrite join_cons_empty, (mapi_from_succ camelWord capitalized 0 _ camelWord_succ).
  reflexivity.
Qed.

(** ** Converting an output again: snake, camel and dot *)

Lemma all_chars_always q s : (forall c, q c = true) -> all_chars q s = true.
Proof.
  intros H. induction s as [|c s IH]; simpl; [|rewrite H, IH]; reflexivity.
Qed.

Lemma toSnakeCase_idempotent s : idempotent_at toSnakeCase s.
Proof.
  intros st o st' H st2. unfold toSnakeCase, ret in *. injection H as <- _.
  set (o := replace_runs is_space "_" (toLowerCase (trim s))).
  assert (Hsp : all_chars (none_of is_space) o = true)
    by (apply replace_runs_clean; reflexivity).
  assert (Hlow : toLowerCase o = o).
  { apply map_chars_fixed. apply replace_runs_keeps; [reflexivity|].
    unfold toLowerCase. rewrite all_chars_map. apply all_chars_always.
    intros c. rewrite lower_char_idem. apply Ascii.eqb_refl. }
  rewrite (trim_none o Hsp), Hlow. unfold replace_runs at 1.
  rewrite (replace_runs_none _ _ _ _ Hsp). reflexivity.
Qed.

Lemma camelWords_word w : is_a_word w = true -> camelWords w = [w].
Proof.
  intros Hw.
  pose proof (camelWords_phrase "" w [] "" eq_refl) as H. simpl in H.
  rewrite append_empty_r in H. apply H; [|reflexivity].
  unfold well_formed_phrase. rewrite Hw. reflexivity.
Qed.

Lemma word_not_blank w : is_a_word w = true -> all_chars is_space w = false.
Proof.
  intros Hw.
  pose proof (phrase_not_blank "" w [] "" Hw eq_refl) as H. simpl in H.
  rewrite append_empty_r in H. exact H.
Qed.

Lemma toCamelCase_word w st :
  is_a_word w = true -> toCamelCase (VString w) st = (Return (toLowerCase w), st).
Proof.
  intros Hw. rewrite toCamelCase_string, (word_not_blank w Hw), (camelWords_word w Hw).
  reflexivity.
Qed.

Lemma toDotCase_word w st :
  is_a_word w = true -> toDotCase (VString w) st = (Return (toLowerCase w), st).
Proof.
  intros Hw. rewrite toDotCase_string, (word_not_blank w Hw).
  change (dotWords w) with (camelWords w). rewrite (camelWords_word w Hw).
  reflexivity.
Qed.

Lemma join_nonempty sep w ws :
  is_empty w = false -> is_empty (join sep (w :: ws)) = false.
Proof.
  unfold join. destruct w as [|c t]; [discriminate|]. intros _.
  destruct ws; reflexivity.
Qed.

Lemma camel_output_word s :
  is_empty_list (camelWords s) = false ->
  is_a_word (join "" (mapi camelWord (camelWords s))) = true.
Proof.
  intros Hne. unfold is_a_word. rewrite camel_output_alnum, andb_true_r.
  pose proof (camelWords_words s) as Hw.
  destruct (camelWords s) as [|w ws]; [discriminate|].
  inversion Hw as [|? ? Hw0 _]; subst.
  unfold mapi. cbn [mapi_from]. rewrite join_nonempty; [reflexivity|].
  pose proof (word_nonempty w Hw0) as E. destruct w; [discriminate | reflexivity].
Qed.

(** A second [toCamelCase] puts its output in lower case. *)
Lemma toCamelCase_twice s st o st' :
  toCamelCase (VString s) st = (Return o, st') ->
  forall st2, toCamelCase (VString o) st2 = (Return (toLowerCase o), st2).
Proof.
  rewrite toCamelCase_string. intros H st2.
  destruct (all_chars is_space s); [discriminate|].
  destruct (is_empty_list (camelWords s)) eqn:E; [discriminate|].
  injection H as <- _. apply toCamelCase_word, camel_output_word, E.
Qed.

Lemma remove_all_join r ws :
  r "."%char = true ->
  Forall (fun w => all_chars (none_of r) w = true) ws ->
  remove_all r (join "." ws) = join "" ws.
Proof.
  intros Hdot H. unfold join. induction H as [|w ws Hw Hws IH]; [reflexivity|].
  destruct ws as [|x ws'].
  - simpl. apply remove_all_none, Hw.
  - change (String.concat "." (w :: x :: ws'))
      with (w ++ String "." (String.concat "." (x :: ws'))).
    change (String.concat "" (w :: x :: ws'))
      with (w ++ String.concat "" (x :: ws')).
    rewrite remove_all_app, (remove_all_none r w Hw). cbn [remove_all].
    rewrite Hdot, IH. reflexivity.
Qed.

Lemma toLowerCase_join ws :
  toLowerCase (join "" (map toLowerCase ws)) = join "" (map toLowerCase ws).
Proof.
  induction ws as [|w ws IH]; [reflexivity|].
  cbn [map]. rewrite join_cons_empty, toLowerCase_app, toLowerCase_idem, IH.
  reflexivity.
Qed.

Lemma alnum_not_dot c : is_alnum c = true -> is_dot c = false.
Proof. each_char c. Qed.

Lemma lowered_words_join s :
  is_empty_list (camelWords s) = false ->
  is_a_word (join "" (map toLowerCase (camelWords s))) = true.
Proof.
  intros Hne. unfold is_a_word.
  rewrite (join_keeps is_alnum "" _ eq_refl (lowered_words_alnum s)), andb_true_r.
  pose proof (camelWords_words s) as Hw.
  destruct (camelWords s) as [|w ws]; [discriminate|].
  inversion Hw as [|? ? Hw0 _]; subst.
  cbn [map]. rewrite join_nonempty; [reflexivity|].
  pose proof (word_nonempty w Hw0) as E. destruct w; [discriminate | reflexivity].
Qed.

Lemma dot_output_not_blank s :
  is_empty_list (camelWords s) = false ->
  all_chars is_space (join "." (map toLowerCase (camelWords s))) = false.
Proof.
  intros Hne. pose proof (camelWords_words s) as Hw.
  destruct (camelWords s) as [|w ws]; [discriminate|].
  inversion Hw as [|? ? Hw0 _]; subst.
  pose proof (word_nonempty w Hw0) as E. pose proof (word_alnum w Hw0) as A.
  destruct w as [|c t]; [discriminate|]. simpl in A.
  apply andb_true_iff in A as [Hc _].
  unfold join. cbn [map String.concat]. destruct (map toLowerCase ws); simpl;
    rewrite lower_char_space, (alnum_not_space c Hc); reflexivity.
Qed.

(** A second [toDotCase] removes the dots of its output. *)
Lemma toDotCase_twice s st o st' :
  toDotCase (VString s) st = (Return o, st') ->
  forall st2, toDotCase (VString o) st2 = (Return (remove_all is_dot o), st2).
Proof.
  rewrite toDotCase_string. change (dotWords s) with (camelWords s). intros H st2.
  destruct (all_chars is_space s); [discriminate|].
  destruct (is_empty_list (camelWords s)) eqn:E; [discriminate|].
  injection H as <- _.
  set (ws := map toLowerCase (camelWords s)).
  assert (Hdots : remove_all is_dot (join "." ws) = join "" ws).
  { apply remove_all_join; [reflexivity|].
    generalize (lowered_words_alnum s). apply Forall_impl. intros w.
    apply all_chars_weaken. intros c Hc. unfold none_of.
    rewrite (alnum_not_dot c Hc). reflexivity. }
  assert (Hspecial : remove_all is_special (join "." ws) = join "" ws).
  { apply remove_all_join; [reflexivity|].
    generalize (lowered_words_alnum s). apply Forall_impl. intros w.
    apply all_chars_weaken. intros c Hc. unfold none_of.
    rewrite (alnum_not_special c Hc). reflexivity. }
  pose proof (dot_output_not_blank s E) as Hnb. fold ws in Hnb.
  rewrite Hdots, toDotCase_string, Hnb.
  unfold dotWords. rewrite Hspecial.
  pose proof (lowered_words_join s E) as Hw. fold ws in Hw.
  assert (Hwords : filter nonempty (split is_separator (join "" ws)) = [join "" ws]).
  { pose proof (camelWords_word _ Hw) as K. unfold camelWords in K.
    rewrite (remove_all_none is_special (join "" ws)) in K; [exact K|].
    generalize (word_alnum _ Hw). apply all_chars_weaken. intros c Hc.
    unfold none_of. rewrite (alnum_not_special c Hc). reflexivity. }
  rewrite Hwords. cbn [is_empty_list map]. unfold ws at 1.
  unfold join at 1. cbn [String.concat]. unfold ws.
  rewrite toLowerCase_join. reflexivity.
Qed.

(** ** Adjacent characters *)

Section Pairs.

Variables p q : ascii -> bool.

Lemma no_pair_cons a s :
  no_pair p q (String a s) = head_ok p q a s && no_pair p q s.
Proof. destruct s; reflexivity. Qed.

Lemma no_pair_none_r s :
  all_chars (none_of q) s = true -> no_pair p q s = true.
Proof.
  unfold none_of. induction s as [|a s IH]; [reflexivity|].
  intros H. simpl in H. apply andb_true_iff in H as [_ Hs].
  rewrite no_pair_cons, (IH Hs), andb_true_r.
  destruct s as [|b s']; [reflexivity|]. simpl in *.
  apply andb_true_iff in Hs as [Hb _]. apply negb_true_iff in Hb.
  rewrite Hb, andb_false_r. reflexivity.
Qed.

Lemma head_ok_hyphenate p0 q0 a s :
  head_ok p q a (hyphenate p0 q0 s) = head_ok p q a s.
Proof.
  destruct s as [|b [|c t]]; try reflexivity.
  simpl. destruct (p0 b && q0 c); reflexivity.
Qed.

Lemma head_ok_drop_trailing cls a s :
  head_ok p q a s = true -> head_ok p q a (drop_trailing cls s) = true.
Proof.
  destruct s as [|b t]; [reflexivity|]. simpl.
  destruct (cls b && is_empty (drop_trailing cls t)); auto.
Qed.

Lemma no_pair_drop_leading cls s :
  no_pair p q s = true -> no_pair p q (drop_leading cls s) = true.
Proof.
  induction s as [|a s IH]; [reflexivity|].
  intros H. cbn [drop_leading]. destruct (cls a); [|exact H].
  rewrite no_pair_cons in H. apply andb_true_iff in H as [_ H]. auto.
Qed.

Lemma no_pair_drop_trailing cls s :
  no_pair p q s = true -> no_pair p q (drop_trailing cls s) = true.
Proof.
  induction s as [|a s IH]; [reflexivity|].
  intros H. rewrite no_pair_cons in H. apply andb_true_iff in H as [Ha Hs].
  cbn [drop_trailing]. destruct (cls a && is_empty (drop_trailing cls s)); [reflexivity|].
  rewrite no_pair_cons, (IH Hs), (head_ok_drop_trailing cls a s Ha). reflexivity.
Qed.

Lemma no_pair_map f s :
  (forall c, p (f c) = p c) -> (forall c, q (f c) = q c) ->
  no_pair p q (map_chars f s) = no_pair p q s.
Proof.
  intros Hp Hq. induction s as [|a s IH]; [reflexivity|].
  cbn [map_chars]. rewrite !no_pair_cons, IH. f_equal.
  destruct s as [|b s']; [reflexivity|]. simpl. rewrite Hp, Hq. reflexivity.
Qed.

Hypothesis p_hyphen : p "-"%char = false.
Hypothesis q_hyphen : q "-"%char = false.

Lemma head_ok_hyphen_r a s : head_ok p q a (String "-" s) = true.
Proof. simpl. rewrite q_hyphen, andb_false_r. reflexivity. Qed.

Lemma head_ok_hyphen_l s : head_ok p q "-" s = true.
Proof. destruct s; simpl; [|rewrite p_hyphen]; reflexivity. Qed.

(** The hyphens put by an insertion make no pair. *)
Lemma hyphenate_keeps_no_pair p0 q0 s :
  no_pair p q s = true -> no_pair p q (hyphenate p0 q0 s) = true.
Proof.
  assert (H : forall n s, String.length s <= n ->
                no_pair p q s = true -> no_pair p q (hyphenate p0 q0 s) = true).
  { induction n as [|n IH]; intros [|a [|b t]] Hn Hs; try reflexivity;
      try (simpl in Hn; lia).
    rewrite no_pair_cons in Hs. apply andb_true_iff in Hs as [Hab Hs].
    change (hyphenate p0 q0 (String a (String b t)))
      with (if p0 a && q0 b
            then String a (String "-" (String b (hyphenate p0 q0 t)))
            else String a (hyphenate p0 q0 (String b t))).
    destruct (p0 a && q0 b).
    - rewrite no_pair_cons, head_ok_hyphen_r, no_pair_cons, head_ok_hyphen_l,
        no_pair_cons, head_ok_hyphenate.
      rewrite no_pair_cons in Hs. apply andb_true_iff in Hs as [Hb Ht].
      rewrite Hb. cbn [andb]. apply IH; [simpl in Hn; lia | exact Ht].
    - rewrite no_pair_cons, head_ok_hyphenate, Hab. cbn [andb].
      apply (IH (String b t)); [simpl in *; lia | exact Hs]. }
  intros Hs. apply (H (String.length s)); [lia | exact Hs].
Qed.

(** After the insertion no pair is left, when no character is of both
    classes. *)
Lemma hyphenate_no_pair_left s :
  (forall c, q c = true -> p c = false) ->
  no_pair p q (hyphenate p q s) = true.
Proof.
  intros Hdisj.
  assert (H : forall n s, String.length s <= n ->
                no_pair p q (hyphenate p q s) = true).
  { induction n as [|n IH]; intros [|a [|b t]] Hn; try reflexivity;
      try (simpl in Hn; lia).
    change (hyphenate p q (String a (String b t)))
      with (if p a && q b
            then String a (String "-" (String b (hyphenate p q t)))
            else String a (hyphenate p q (String b t))).
    destruct (p a && q b) eqn:Hab.
    - rewrite no_pair_cons, head_ok_hyphen_r, no_pair_cons, head_ok_hyphen_l,
        no_pair_cons, head_ok_hyphenate.
      apply andb_true_iff in Hab as [_ Hb].
      assert (Hbt : head_ok p q b t = true).
      { destruct t; [reflexivity|]. simpl. rewrite (Hdisj b Hb). reflexivity. }
      rewrite Hbt. cbn [andb]. apply IH. simpl in Hn. lia.
    - rewrite no_pair_cons, head_ok_hyphenate. cbn [head_ok]. rewrite Hab.
      cbn [negb andb]. apply (IH (String b t)). simpl in *. lia. }
  apply (H (String.length s)). lia.
Qed.

(** A run replaced by a hyphen makes no pair. *)
Lemma replace_runs_keeps_no_pair_from cls s :
  no_pair p q s = true ->
  no_pair p q (replace_runs_from cls "-" false s) = true /\
  no_pair p q (String "-" (replace_runs_from cls "-" true s)) = true.
Proof.
  induction s as [|c t IH]; [split; reflexivity|].
  intros H. rewrite no_pair_cons in H. apply andb_true_iff in H as [Hc Ht].
  destruct (IH Ht) as [IH1 IH2]. cbn [replace_runs_from].
  destruct (cls c) eqn:Ec.
  - split; [exact IH2 | exact IH2].
  - assert (K : no_pair p q (String c (replace_runs_from cls "-" false t)) = true).
    { rewrite no_pair_cons, IH1, andb_true_r.
      destruct t as [|d t']; [reflexivity|]. cbn [replace_runs_from].
      destruct (cls d); [apply head_ok_hyphen_r | exact Hc]. }
    split; [exact K|].
    rewrite no_pair_cons, K, andb_true_r. apply head_ok_hyphen_l.
Qed.

Lemma replace_runs_keeps_no_pair cls s :
  no_pair p q s = true -> no_pair p q (replace_runs cls "-" s) = true.
Proof. intros H. apply (replace_runs_keeps_no_pair_from cls s H). Qed.

End Pairs.

(** ** Runs of hyphens *)

Lemma collapse_no_pair_from s :
  no_pair is_hyphen is_hyphen (replace_runs_from is_hyphen "-" false s) = true /\
  no_pair is_hyphen is_hyphen
    (String "-" (replace_runs_from is_hyphen "-" true s)) = true.
Proof.
  induction s as [|c t [IH1 IH2]]; [split; reflexivity|].
  cbn [replace_runs_from]. destruct (is_hyphen c) eqn:Ec.
  - split; exact IH2.
  - assert (K : no_pair is_hyphen is_hyphen
                  (String c (replace_runs_from is_hyphen "-" false t)) = true).
    { rewrite no_pair_cons, IH1, andb_true_r.
      destruct (replace_runs_from is_hyphen "-" false t); [reflexivity|].
      cbn [head_ok]. rewrite Ec. reflexivity. }
    split; [exact K|]. rewrite no_pair_cons, K, andb_true_r. cbn [head_ok].
    rewrite Ec, andb_false_r. reflexivity.
Qed.

Lemma collapsed_fixed_from s :
  no_pair is_hyphen is_hyphen s = true ->
  replace_runs_from is_hyphen "-" false s = s /\
  (starts_with (none_of is_hyphen) s = true ->
   replace_runs_from is_hyphen "-" true s = s).
Proof.
  induction s as [|c t IH]; [split; reflexivity|].
  intros H. rewrite no_pair_cons in H. apply andb_true_iff in H as [Hc Ht].
  destruct (IH Ht) as [IH1 IH2]. cbn [replace_runs_from starts_with]. unfold none_of.
  destruct (is_hyphen c) eqn:Ec.
  - split; [|discriminate]. rewrite (hyphen_eq c Ec). simpl. f_equal.
    apply IH2. destruct t as [|d t']; [reflexivity|]. simpl in *.
    unfold none_of. rewrite Ec in Hc. simpl in Hc. exact Hc.
  - rewrite IH1. split; reflexivity.
Qed.

(** ** Leading and trailing runs, once removed *)

Lemma drop_trailing_idem p s :
  drop_trailing p (drop_trailing p s) = drop_trailing p s.
Proof.
  induction s as [|c t IH]; [reflexivity|]. cbn [drop_trailing].
  destruct (p c && is_empty (drop_trailing p t)) eqn:E; [reflexivity|].
  cbn [drop_trailing]. rewrite IH, E. reflexivity.
Qed.

Lemma starts_with_drop_leading p s :
  starts_with (none_of p) (drop_leading p s) = true.
Proof.
  unfold none_of. induction s as [|c t IH]; [reflexivity|]. cbn [drop_leading].
  destruct (p c) eqn:E; [exact IH|]. simpl. rewrite E. reflexivity.
Qed.

Lemma starts_with_drop_trailing p s :
  starts_with (none_of p) s = true ->
  starts_with (none_of p) (drop_trailing p s) = true.
Proof.
  unfold none_of. destruct s as [|c t]; [reflexivity|]. simpl. intros H.
  apply negb_true_iff in H. rewrite H. simpl. rewrite H. reflexivity.
Qed.

Lemma drop_leading_fixed p s :
  starts_with (none_of p) s = true -> drop_leading p s = s.
Proof.
  unfold none_of. destruct s as [|c t]; [reflexivity|]. simpl. intros H.
  apply negb_true_iff in H. rewrite H. reflexivity.
Qed.

(** ** Converting an output again: kebab *)

Lemma kebab_char_classes c :
  is_kebab_char c = true ->
  is_upper c = false /\ is_space_or_underscore c = false /\
  is_not_word_or_hyphen c = false /\ lower_char c = c.
Proof.
  destruct c as [[] [] [] [] [] [] [] []]; vm_compute; intros H;
    first [ discriminate H | repeat split ].
Qed.

Lemma clean_char_kept c :
  is_special c = false -> is_space_or_underscore c = false ->
  is_not_word_or_hyphen c = false.
Proof. each_char c. Qed.

Lemma kebabChain_collapsed s :
  no_pair is_hyphen is_hyphen (kebabChain s) = true.
Proof.
  unfold kebabChain. apply no_pair_drop_trailing, no_pair_drop_leading.
  apply collapse_no_pair_from.
Qed.

Lemma kebabChain_trimmed s :
  drop_leading is_hyphen (kebabChain s) = kebabChain s /\
  drop_trailing is_hyphen (kebabChain s) = kebabChain s.
Proof.
  unfold kebabChain. split.
  - apply drop_leading_fixed, starts_with_drop_trailing, starts_with_drop_leading.
  - apply drop_trailing_idem.
Qed.

(** The strings that the chain of [toKebabCase] leaves as they are. *)
Lemma kebabChain_fixed o :
  all_chars is_kebab_char o = true ->
  no_pair is_letter is_digit o = true ->
  no_pair is_digit is_letter o = true ->
  no_pair is_hyphen is_hyphen o = true ->
  drop_leading is_hyphen o = o ->
  drop_trailing is_hyphen o = o ->
  kebabChain o = o.
Proof.
  intros Hk Hld Hdl Hhh Hlead Htrail.
  assert (Hcls : forall cls : ascii -> bool,
             (forall c, is_kebab_char c = true -> cls c = false) ->
             all_chars (none_of cls) o = true).
  { intros cls Hcls. revert Hk. apply all_chars_weaken. intros c Hc.
    unfold none_of. rewrite (Hcls c Hc). reflexivity. }
  unfold kebabChain.
  rewrite (hyphenate_no_pair is_lower is_upper o)
    by (apply no_pair_none_r, Hcls; intros c Hc; apply (kebab_char_classes c Hc)).
  rewrite (hyphenate_no_pair is_letter is_digit o Hld).
  rewrite (hyphenate_no_pair is_digit is_letter o Hdl).
  unfold replace_runs.
  rewrite (replace_runs_none is_space_or_underscore "-" false o)
    by (apply Hcls; intros c Hc; apply (kebab_char_classes c Hc)).
  rewrite (remove_all_none is_not_word_or_hyphen o)
    by (apply Hcls; intros c Hc; apply (kebab_char_classes c Hc)).
  assert (Hlow : toLowerCase o = o).
  { apply map_chars_fixed. revert Hk. apply all_chars_weaken. intros c Hc.
    destruct (kebab_char_classes c Hc) as (_ & _ & _ & ->). apply Ascii.eqb_refl. }
  rewrite Hlow, (proj1 (collapsed_fixed_from o Hhh)), Hlead. exact Htrail.
Qed.

Lemma kebabChain_twice s :
  no_pair is_letter is_digit (kebabChain s) = true ->
  no_pair is_digit is_letter (kebabChain s) = true ->
  kebabChain (kebabChain s) = kebabChain s.
Proof.
  intros Hld Hdl. destruct (kebabChain_trimmed s) as [Hlead Htrail].
  apply kebabChain_fixed; auto using kebabChain_chars, kebabChain_collapsed.
Qed.

(** On a text of letters, digits, white space, underscores and hyphens
    the chain removes no character between a letter and a digit, and its
    output has no letter next to a digit. *)
Lemma kebabChain_clean s :
  all_chars (none_of is_special) s = true ->
  no_pair is_letter is_digit (kebabChain s) = true /\
  no_pair is_digit is_letter (kebabChain s) = true.
Proof.
  intros Hclean. unfold kebabChain.
  set (s1 := hyphenate is_lower is_upper s).
  set (s2 := hyphenate is_letter is_digit s1).
  set (s3 := hyphenate is_digit is_letter s2).
  set (s4 := replace_runs is_space_or_underscore "-" s3).
  assert (H3 : all_chars (none_of is_special) s3 = true)
    by (repeat (apply hyphenate_keeps; [reflexivity|]); exact Hclean).
  assert (H5 : remove_all is_not_word_or_hyphen s4 = s4).
  { apply remove_all_none.
    pose proof (all_chars_both _ _ _
                  (replace_runs_keeps (none_of is_special) is_space_or_underscore
                     "-" false s3 eq_refl H3)
                  (replace_runs_clean is_space_or_underscore "-" false s3 eq_refl))
      as K.
    revert K. apply all_chars_weaken. intros c Hc. unfold none_of in *.
    apply andb_true_iff in Hc as [Hc1 Hc2]. apply negb_true_iff in Hc1, Hc2.
    rewrite (clean_char_kept c Hc1 Hc2). reflexivity. }
  rewrite H5.
  assert (Hld3 : no_pair is_letter is_digit s3 = true).
  { apply hyphenate_keeps_no_pair; [reflexivity | reflexivity |].
    apply hyphenate_no_pair_left; [reflexivity | reflexivity |].
    exact digit_not_letter. }
  assert (Hdl3 : no_pair is_digit is_letter s3 = true).
  { apply hyphenate_no_pair_left; [reflexivity | reflexivity |].
    exact letter_not_digit. }
  split.
  - apply no_pair_drop_trailing, no_pair_drop_leading.
    apply replace_runs_keeps_no_pair; [reflexivity | reflexivity |].
    unfold toLowerCase.
    rewrite (no_pair_map is_letter is_digit lower_char s4
               lower_char_letter lower_char_digit).
    apply replace_runs_keeps_no_pair; [reflexivity | reflexivity | exact Hld3].
  - apply no_pair_drop_trailing, no_pair_drop_leading.
    apply replace_runs_keeps_no_pair; [reflexivity | reflexivity |].
    unfold toLowerCase.
    rewrite (no_pair_map is_digit is_letter lower_char s4
               lower_char_digit lower_char_letter).
    apply replace_runs_keeps_no_pair; [reflexivity | reflexivity | exact Hdl3].
Qed.

Lemma toKebabCase_twice s :
  no_pair is_letter is_digit (kebabChain s) = true ->
  no_pair is_digit is_letter (kebabChain s) = true ->
  idempotent_at toKebabCase s.
Proof.
  intros Hld Hdl st o st' H st2. rewrite toKebabCase_string in H.
  injection H as <- _.
  rewrite toKebabCase_string, (kebabChain_twice s Hld Hdl). reflexivity.
Qed.

(** ** Idempotence *)

(** C4, as amended.  Converting its own output again, [toSnakeCase]
    returns that output unchanged, for every string; [toCamelCase] returns
    it in lower case and [toDotCase] returns it without its dots, so that
    both return it unchanged when the input has one word; [toKebabCase]
    returns it unchanged when no letter is next to a digit in it, which is
    so whenever the input has only letters, digits, white space,
    underscores and hyphens. *)
Theorem converting_an_output_again :
  (forall s, idempotent_at toSnakeCase s) /\
  (forall s st o st',
     toCamelCase (VString s) st = (Return o, st') ->
     forall st2, toCamelCase (VString o) st2 = (Return (toLowerCase o), st2)) /\
  (forall s, List.length (camelWords s) = 1 -> idempotent_at toCamelCase s) /\
  (forall s st o st',
     toDotCase (VString s) st = (Return o, st') ->
     forall st2, toDotCase (VString o) st2 = (Return (remove_all is_dot o), st2)) /\
  (forall s, List.length (dotWords s) = 1 -> idempotent_at toDotCase s) /\
  (forall s,
     no_pair is_letter is_digit (kebabChain s) = true ->
     no_pair is_digit is_letter (kebabChain s) = true ->
     idempotent_at toKebabCase s) /\
  (forall s, all_chars (none_of is_special) s = true ->
     idempotent_at toKebabCase s).
Proof.
  split; [exact toSnakeCase_idempotent|].
  split; [exact toCamelCase_twice|].
  split.
  { intros s Hone st o st' H st2.
    rewrite (toCamelCase_twice s st o st' H st2). f_equal. f_equal.
    rewrite toCamelCase_string in H.
    destruct (all_chars is_space s); [discriminate|].
    destruct (camelWords s) as [|w [|x ws]]; try discriminate.
    injection H as <- _. apply toLowerCase_idem. }
  split; [exact toDotCase_twice|].
  split.
  { intros s Hone st o st' H st2.
    rewrite (toDotCase_twice s st o st' H st2). f_equal. f_equal.
    rewrite toDotCase_string in H.
    destruct (all_chars is_space s); [discriminate|].
    pose proof (lowered_words_alnum s) as Hw.
    change (dotWords s) with (camelWords s) in *.
    destruct (camelWords s) as [|w [|x ws]]; try discriminate.
    injection H as <- _. inversion Hw as [|? ? Hw0 _]; subst.
    apply remove_all_none. revert Hw0. apply all_chars_weaken.
    intros c Hc. unfold none_of. rewrite (alnum_not_dot c Hc). reflexivity. }
  split; [exact toKebabCase_twice|].
  intros s Hclean. destruct (kebabChain_clean s Hclean) as [Hld Hdl].
  apply toKebabCase_twice; assumption.
Qed.

Lemma converting_an_output_again_witness :
  toSnakeCase (VString "hello_world_!") empty_store
    = (Return "hello_world_!", empty_store) /\
  toCamelCase (VString "helloWorld") empty_store
    = (Return "helloworld", empty_store) /\
  toCamelCase (VString "hello") empty_store = (Return "hello", empty_store) /\
  toDotCase (VString "hello.world") empty_store
    = (Return "helloworld", empty_store) /\
  toDotCase (VString "hello") empty_store = (Return "hello", empty_store) /\
  toKebabCase (VString "a-1-b-foo-bar") empty_store
    = (Return "a-1-b-foo-bar", empty_store).
Proof.
  destruct converting_an_output_again as (Hs & Hc & Hc1 & Hd & Hd1 & Hk & Hk').
  split.
  { exact (Hs "  Hello   World !  " empty_store "hello_world_!" empty_store
             eq_refl empty_store). }
  split.
  { exact (Hc "hello world" empty_store "helloWorld" empty_store
             eq_refl empty_store). }
  split.
  { exact (Hc1 " Hello_" eq_refl empty_store "hello" empty_store
             eq_refl empty_store). }
  split.
  { exact (Hd "hello world" empty_store "hello.world" empty_store
             eq_refl empty_store). }
  split.
  { exact (Hd1 "-Hello " eq_refl empty_store "hello" empty_store
             eq_refl empty_store). }
  exact (Hk' "a1b fooBar" eq_refl empty_store "a-1-b-foo-bar" empty_store
           eq_refl empty_store).
Defined.

(** C4 as stated fails for the camel, dot and kebab styles: each of the
    three changes an output of its own. *)
Lemma an_output_converted_again_changes :
  (toCamelCase (VString "hello world") empty_store
     = (Return "helloWorld", empty_store) /\
   toCamelCase (VString "helloWorld") empty_store
     = (Return "helloworld", empty_store)) /\
  (toDotCase (VString "hello world") empty_store
     = (Return "hello.world", empty_store) /\
   toDotCase (VString "hello.world") empty_store
     = (Return "helloworld", empty_store)) /\
  (toKebabCase (VString "a!1") empty_store = (Return "a1", empty_store) /\
   toKebabCase (VString "a1") empty_store = (Return "a-1", empty_store)) /\
  ~ idempotent_at toCamelCase "hello world" /\
  ~ idempotent_at toDotCase "hello world" /\
  ~ idempotent_at toKebabCase "a!1".
Proof.
  repeat split; try reflexivity.
  - intros H.
    specialize (H empty_store "helloWorld" empty_store eq_refl empty_store).
    discriminate H.
  - intros H.
    specialize (H empty_store "hello.world" empty_store eq_refl empty_store).
    discriminate H.
  - intros H. specialize (H empty_store "a1" empty_store eq_refl empty_store).
    discriminate H.
Qed.

(** * Further properties of the converters *)

(** ** Replacing the runs of a class is splitting and joining *)

Section Runs.

Variable p : ascii -> bool.
Variable by_ : string.

Lemma split_from_not_nil b s : split_from p b s <> [].
Proof.
  revert b. induction s as [|c s IH]; simpl; intros b; [discriminate|].
  destruct (p c).
  - destruct b; [apply IH | discriminate].
  - destruct (split_from p false s); discriminate.
Qed.

(** [s.replace(/[cls]+/g, by)] is [s.split(/[cls]+/).join(by)]. *)
Lemma replace_runs_split_join b s :
  replace_runs_from p by_ b s = join by_ (split_from p b s).
Proof.
  unfold join. revert b. induction s as [|c s IH]; intros b; [reflexivity|].
  cbn [replace_runs_from split_from]. destruct (p c).
  - rewrite (IH true). pose proof (split_from_not_nil true s) as Hne.
    destruct b; [reflexivity|].
    destruct (split_from p true s) as [|w ws]; [contradiction | reflexivity].
  - rewrite (IH false). destruct (split_from p false s) as [|w [|x ws]]; reflexivity.
Qed.





Lemma drop_trailing_app_fixed a s :
  drop_trailing p s = s -> is_empty s = false ->
  drop_trailing p (a ++ s) = a ++ s.
Proof.
  intros Hs Hne. induction a as [|c a IH]; [exact Hs|]. simpl. rewrite IH.
  assert (E : is_empty (a ++ s) = false) by (destruct a; [exact Hne | reflexivity]).
  rewrite E, andb_false_r. reflexivity.
Qed.

Variable is_piece : string -> bool.
Hypothesis piece_chars :
  forall w, is_piece w = true -> all_chars (none_of p) w = true.
Hypothesis piece_nonempty :
  forall w, is_piece w = true -> is_empty w = false.





End Runs.

(** ** [toSnakeCase] on tokens *)






Lemma toLowerCase_join_sep sep ws :
  toLowerCase sep = sep ->
  toLowerCase (join sep ws) = join sep (map toLowerCase ws).
Proof.
  intros Hsep. unfold join. induction ws as [|w ws IH]; [reflexivity|].
  destruct ws as [|x ws']; [reflexivity|].
  change (String.concat sep (w :: x :: ws'))
    with (w ++ sep ++ String.concat sep (x :: ws')).
  rewrite !toLowerCase_app, Hsep, IH. reflexivity.
Qed.



(** X2.  [toSnakeCase] is [str.trim().toLowerCase().split(/\s+/).join("_")]:
    replacing the runs of white space by an underscore is splitting at them
    and joining the pieces with an underscore. *)
Theorem toSnakeCase_split_join s st :
  toSnakeCase (VString s) st =
  (Return (join "_" (split is_space (toLowerCase (trim s)))), st).
Proof.
  unfold toSnakeCase, ret, replace_runs, split.
  rewrite replace_runs_split_join. reflexivity.
Qed.

(** ** [toDotCase] on words and separator runs *)

(** X3.  On words of letters and digits separated by runs of white space,
    underscores and hyphens, with such a run before and after or not,
    [toDotCase] returns the words in lower case joined by single dots. *)
Theorem toDotCase_phrase pre w0 rest post st :
  all_chars is_separator pre = true ->
  well_formed_phrase w0 rest = true ->
  all_chars is_separator post = true ->
  toDotCase (VString (pre ++ phrase w0 rest ++ post)) st =
  (Return (join "." (map toLowerCase (w0 :: map snd rest))), st).
Proof.
  intros Hpre Hwf Hpost. rewrite toDotCase_string.
  change (dotWords (pre ++ phrase w0 rest ++ post))
    with (camelWords (pre ++ phrase w0 rest ++ post)).
  rewrite (camelWords_phrase pre w0 rest post Hpre Hwf Hpost).
  unfold well_formed_phrase in Hwf. apply andb_true_iff in Hwf as [Hw0 _].
  rewrite (phrase_not_blank pre w0 rest post Hw0 Hpre). reflexivity.
Qed.

Lemma toDotCase_phrase_witness :
  toDotCase (VString "__user-ID  42_") empty_store =
  (Return "user.id.42", empty_store).
Proof.
  apply (toDotCase_phrase "__" "user" [("-", "ID"); ("  ", "42")] "_" empty_store);
    reflexivity.
Defined.

(** ** When [toCamelCase] and [toDotCase] return *)

Lemma has_alnum_not_blank s : has_alnum s = true -> is_blank s = false.
Proof.
  unfold has_alnum, is_blank. intros H. apply negb_true_iff in H.
  destruct (all_chars is_space s) eqn:E; [|reflexivity].
  rewrite (space_not_alnum s E) in H. discriminate.
Qed.

Lemma pieces_of_a_word p b s :
  all_chars p s = false -> is_empty_list (filter nonempty (split_from p b s)) = false.
Proof.
  revert b. induction s as [|c s IH]; [discriminate|]. intros b H.
  simpl in H. cbn [split_from]. destruct (p c) eqn:Hc.
  - simpl in H. destruct b; [apply IH, H | simpl; apply IH, H].
  - destruct (split_from p false s); reflexivity.
Qed.

Lemma sanitized_has_word s :
  has_alnum s = true -> all_chars is_separator (remove_all is_special s) = false.
Proof.
  unfold has_alnum, none_of. intros H. apply negb_true_iff in H.
  induction s as [|c s IH]; [discriminate|]. simpl in H. cbn [remove_all].
  destruct (is_alnum c) eqn:Hc; simpl in H.
  - rewrite (alnum_not_special c Hc). simpl.
    rewrite (alnum_not_separator c Hc). reflexivity.
  - destruct (is_special c); [exact (IH H)|]. simpl. rewrite (IH H).
    apply andb_false_r.
Qed.

Lemma camelWords_has_alnum s :
  is_empty_list (camelWords s) = negb (has_alnum s).
Proof.
  destruct (has_alnum s) eqn:H; simpl.
  - apply pieces_of_a_word, sanitized_has_word, H.
  - unfold has_alnum in H. apply negb_false_iff in H.
    rewrite (camelWords_no_alnum s H). reflexivity.
Qed.

(** X4.  [toCamelCase] and [toDotCase] return a string exactly on the
    strings that have an ASCII letter or digit.  On the others they fail:
    with EmptyInput when the string is empty or white space only, with
    NoValidCharacters when it has another character. *)
Theorem camel_and_dot_outcome s st :
  (has_alnum s = true ->
   exists c d, toCamelCase (VString s) st = (Return c, st) /\
               toDotCase (VString s) st = (Return d, st)) /\
  (has_alnum s = false -> is_blank s = true ->
   toCamelCase (VString s) st = (Throw EmptyInput, st) /\
   toDotCase (VString s) st = (Throw EmptyInput, st)) /\
  (has_alnum s = false -> is_blank s = false ->
   toCamelCase (VString s) st = (Throw NoValidCharacters, st) /\
   toDotCase (VString s) st = (Throw NoValidCharacters, st)).
Proof.
  rewrite toCamelCase_string, toDotCase_string.
  change (dotWords s) with (camelWords s). rewrite camelWords_has_alnum.
  fold (is_blank s). split; [|split].
  - intros H. rewrite (has_alnum_not_blank s H), H. simpl. eauto.
  - intros _ ->. split; reflexivity.
  - intros -> ->. split; reflexivity.
Qed.

Lemma camel_and_dot_outcome_witness :
  (exists c d, toCamelCase (VString "?a?") empty_store = (Return c, empty_store) /\
               toDotCase (VString "?a?") empty_store = (Return d, empty_store)) /\
  toCamelCase (VString " 	 ") empty_store = (Throw EmptyInput, empty_store) /\
  toDotCase (VString " ?! ") empty_store = (Throw NoValidCharacters, empty_store).
Proof.
  split; [apply (proj1 (camel_and_dot_outcome "?a?" empty_store)); reflexivity|].
  split.
  - apply (proj1 (proj2 (camel_and_dot_outcome " 	 " empty_store)));
      reflexivity.
  - apply (proj2 (proj2 (camel_and_dot_outcome " ?! " empty_store)));
      reflexivity.
Defined.

(** ** The shape of the outputs of [toCamelCase] and [toDotCase] *)

Lemma lower_char_not_upper c : is_upper (lower_char c) = false.
Proof. each_char c. Qed.

Lemma lowered_alnum_char c :
  is_alnum c = true -> is_lower (lower_char c) || is_digit (lower_char c) = true.
Proof. each_char c. Qed.

(** X5.  A string returned by [toCamelCase] is not empty, is made of ASCII
    letters and digits only, and does not begin with an upper-case
    letter. *)
Theorem toCamelCase_output_shape v st o st' :
  toCamelCase v st = (Return o, st') ->
  is_empty o = false /\ all_chars is_alnum o = true /\
  starts_with (none_of is_upper) o = true.
Proof.
  intros H. destruct v; try discriminate H. rewrite toCamelCase_string in H.
  destruct (all_chars is_space s); [discriminate|].
  destruct (is_empty_list (camelWords s)) eqn:E; [discriminate|].
  injection H as <- _. pose proof (camel_output_word s E) as Hw.
  split; [apply word_nonempty, Hw|]. split; [apply word_alnum, Hw|].
  pose proof (camelWords_words s) as Hws.
  destruct (camelWords s) as [|w ws]; [discriminate|].
  inversion Hws as [|? ? Hw0 _]; subst. pose proof (word_nonempty w Hw0) as Hne.
  destruct w as [|c t]; [discriminate|].
  unfold mapi. cbn [mapi_from]. rewrite join_cons_empty. simpl.
  unfold none_of. rewrite lower_char_not_upper. reflexivity.
Qed.

Lemma toCamelCase_output_shape_witness :
  is_empty "helloWorld9" = false /\ all_chars is_alnum "helloWorld9" = true /\
  starts_with (none_of is_upper) "helloWorld9" = true.
Proof.
  apply (toCamelCase_output_shape (VString "HELLO  world-9") empty_store
           "helloWorld9" empty_store).
  reflexivity.
Defined.

Lemma no_pair_app_none p q w s :
  all_chars (none_of p) w = true -> no_pair p q s = true ->
  no_pair p q (w ++ s) = true.
Proof.
  unfold none_of. intros Hw Hs. induction w as [|c w IH]; [exact Hs|].
  simpl in Hw. apply andb_true_iff in Hw as [Hc Hw]. apply negb_true_iff in Hc.
  change (String c w ++ s) with (String c (w ++ s)).
  rewrite no_pair_cons, (IH Hw), andb_true_r.
  destruct (w ++ s); simpl; [|rewrite Hc]; reflexivity.
Qed.

Lemma joined_by_dots ws :
  is_empty_list ws = false ->
  Forall (fun w => is_empty w = false /\ all_chars (none_of is_dot) w = true) ws ->
  is_empty (join "." ws) = false /\
  starts_with (none_of is_dot) (join "." ws) = true /\
  drop_trailing is_dot (join "." ws) = join "." ws /\
  no_pair is_dot is_dot (join "." ws) = true.
Proof.
  intros Hne H. unfold join. induction H as [|w ws [Hw1 Hw2] Hws IH]; [discriminate|].
  assert (Hstart : starts_with (none_of is_dot) w = true).
  { destruct w as [|c t]; [reflexivity|]. simpl in *.
    apply andb_true_iff in Hw2. tauto. }
  destruct ws as [|x ws'].
  - simpl. repeat split; auto using drop_trailing_none, no_pair_none.
  - destruct (IH eq_refl) as (I1 & I2 & I3 & I4).
    change (String.concat "." (w :: x :: ws'))
      with (w ++ String "." (String.concat "." (x :: ws'))).
    set (J := String.concat "." (x :: ws')) in *.
    split; [destruct w; [discriminate | reflexivity]|].
    split; [destruct w; [discriminate | exact Hstart]|].
    split.
    + change (w ++ String "." J) with (w ++ "." ++ J).
      rewrite <- append_assoc. apply drop_trailing_app_fixed; assumption.
    + apply no_pair_app_none; [exact Hw2|].
      rewrite no_pair_cons, I4, andb_true_r.
      destruct J as [|c t]; [reflexivity|]. simpl in *. unfold none_of in I2.
      apply negb_true_iff in I2. rewrite I2. reflexivity.
Qed.

(** X6.  A string returned by [toDotCase] is made of lower-case ASCII
    letters, digits and dots only; it is not empty, neither begins nor ends
    with a dot, and has no two dots in a row. *)
Theorem toDotCase_output_shape v st o st' :
  toDotCase v st = (Return o, st') ->
  all_chars is_dot_char o = true /\ is_empty o = false /\
  starts_with (none_of is_dot) o = true /\
  drop_trailing is_dot o = o /\
  no_pair is_dot is_dot o = true.
Proof.
  intros H. destruct v; try discriminate H. rewrite toDotCase_string in H.
  destruct (all_chars is_space s); [discriminate|].
  change (dotWords s) with (camelWords s) in H.
  destruct (is_empty_list (camelWords s)) eqn:E; [discriminate|].
  injection H as <- _. split.
  - apply join_keeps; [reflexivity|]. apply Forall_map.
    generalize (camelWords_words s). apply Forall_impl. intros w Hw.
    unfold toLowerCase. rewrite all_chars_map.
    generalize (word_alnum w Hw). apply all_chars_weaken. intros c Hc.
    unfold is_dot_char. rewrite (lowered_alnum_char c Hc). reflexivity.
  - apply joined_by_dots.
    + destruct (camelWords s); [discriminate | reflexivity].
    + apply Forall_map.
      generalize (camelWords_words s). apply Forall_impl. intros w Hw. split.
      * pose proof (word_nonempty w Hw). destruct w; [discriminate | reflexivity].
      * unfold toLowerCase. rewrite all_chars_map.
        generalize (word_alnum w Hw). apply all_chars_weaken. intros c Hc.
        unfold none_of. rewrite alnum_not_dot; [reflexivity|].
        rewrite lower_char_alnum. exact Hc.
Qed.

Lemma toDotCase_output_shape_witness :
  all_chars is_dot_char "user.id.42" = true /\ is_empty "user.id.42" = false /\
  starts_with (none_of is_dot) "user.id.42" = true /\
  drop_trailing is_dot "user.id.42" = "user.id.42" /\
  no_pair is_dot is_dot "user.id.42" = true.
Proof.
  apply (toDotCase_output_shape (VString "__user-ID  42_") empty_store
           "user.id.42" empty_store).
  reflexivity.
Defined.

(** ** The shape of the outputs of [toKebabCase] *)

(** X7.  [toKebabCase] raises nothing: on every value it returns a string,
    made of lower-case ASCII letters, digits and hyphens only, which
    neither begins nor ends with a hyphen and has no two hyphens in a
    row. *)
Theorem toKebabCase_output_shape v st :
  exists o,
    toKebabCase v st = (Return o, st) /\
    all_chars is_kebab_char o = true /\
    starts_with (none_of is_hyphen) o = true /\
    drop_trailing is_hyphen o = o /\
    no_pair is_hyphen is_hyphen o = true.
Proof.
  assert (Hempty : exists o : string,
             (Return "", st) = (Return o, st) /\
             all_chars is_kebab_char o = true /\
             starts_with (none_of is_hyphen) o = true /\
             drop_trailing is_hyphen o = o /\
             no_pair is_hyphen is_hyphen o = true)
    by (exists ""; repeat split).
  destruct v; try (rewrite toKebabCase_other by discriminate; exact Hempty).
  exists (kebabChain s). rewrite toKebabCase_string.
  split; [reflexivity|]. split; [apply kebabChain_chars|].
  split; [|split; [apply kebabChain_trimmed | apply kebabChain_collapsed]].
  unfold kebabChain. apply starts_with_drop_trailing, starts_with_drop_leading.
Qed.

(** ** [toKebabCase] through the words of [toCamelCase] and [toDotCase] *)

Section Collapse.

Variable p : ascii -> bool.
Variable d : ascii.
Hypothesis p_d : p d = true.

Let by_ : string := String d EmptyString.

Let after (l : list string) : string :=
  match l with
  | [] => EmptyString
  | _ :: _ => by_ ++ join by_ l
  end.

Lemma join_cons_after w l : join by_ (w :: l) = w ++ after l.
Proof. destruct l; [symmetry; apply append_empty_r | reflexivity]. Qed.

Lemma drop_leading_replace_runs b s :
  drop_leading p (replace_runs_from p by_ b s) = replace_runs_from p by_ true s.
Proof.
  revert b. induction s as [|c s IH]; intros b; [reflexivity|].
  cbn [replace_runs_from]. destruct (p c) eqn:Hc.
  - destruct b; [apply IH|]. unfold by_. simpl. rewrite p_d. apply IH.
  - simpl. rewrite Hc. reflexivity.
Qed.

Lemma join_nonempty_pieces l :
  is_empty (join by_ (filter nonempty l)) = is_empty_list (filter nonempty l).
Proof.
  induction l as [|w l IH]; [reflexivity|]. cbn [filter].
  destruct (nonempty w) eqn:Hw; [|exact IH].
  rewrite join_cons_after. destruct w; [discriminate | reflexivity].
Qed.

Lemma drop_trailing_replace_runs s :
  drop_trailing p (replace_runs_from p by_ false s) =
    hd "" (split_from p false s) ++ after (filter nonempty (tl (split_from p false s)))
  /\
  drop_trailing p (replace_runs_from p by_ true s) =
    join by_ (filter nonempty (split_from p true s)).
Proof.
  induction s as [|c s [IHf IHt]]; [split; reflexivity|].
  cbn [replace_runs_from split_from]. destruct (p c) eqn:Hc.
  - split; [|exact IHt]. cbn [hd tl]. unfold by_ at 1.
    change (String d "" ++ replace_runs_from p by_ true s)
      with (String d (replace_runs_from p by_ true s)).
    cbn [drop_trailing]. rewrite IHt, p_d, join_nonempty_pieces.
    destruct (filter nonempty (split_from p true s)); reflexivity.
  - assert (K : drop_trailing p (String c (replace_runs_from p by_ false s)) =
                String c (hd "" (split_from p false s)
                          ++ after (filter nonempty (tl (split_from p false s))))).
    { cbn [drop_trailing]. rewrite Hc, IHf. reflexivity. }
    rewrite K. destruct (split_from p false s) as [|w ws]; split; try reflexivity.
    cbn [filter nonempty String.length Nat.ltb Nat.leb]. rewrite join_cons_after.
    reflexivity.
Qed.

(** Collapsing the runs and removing them at both ends leaves the
    non-empty pieces, joined. *)
Lemma collapse_and_trim s :
  drop_trailing p (drop_leading p (replace_runs p by_ s)) =
  join by_ (filter nonempty (split_from p true s)).
Proof.
  unfold replace_runs. rewrite drop_leading_replace_runs.
  apply drop_trailing_replace_runs.
Qed.

End Collapse.

Lemma pieces_flag p s :
  filter nonempty (split_from p true s) = filter nonempty (split_from p false s).
Proof. destruct s as [|c s]; [reflexivity|]. simpl. destruct (p c); reflexivity. Qed.

Lemma split_map (p : ascii -> bool) (f : ascii -> ascii) b s :
  (forall c, p (f c) = p c) ->
  split_from p b (map_chars f s) = map (map_chars f) (split_from p b s).
Proof.
  intros Hp. revert b. induction s as [|c s IH]; intros b; [reflexivity|].
  cbn [map_chars split_from]. rewrite Hp. destruct (p c).
  - rewrite IH. destruct b; reflexivity.
  - rewrite IH. destruct (split_from p false s); reflexivity.
Qed.

Lemma filter_nonempty_map f l :
  filter nonempty (map (map_chars f) l) = map (map_chars f) (filter nonempty l).
Proof.
  induction l as [|w l IH]; [reflexivity|]. cbn [map filter].
  assert (E : nonempty (map_chars f w) = nonempty w) by (destruct w; reflexivity).
  rewrite E, IH. destruct (nonempty w); reflexivity.
Qed.

Lemma remove_all_map (p : ascii -> bool) (f : ascii -> ascii) s :
  (forall c, p (f c) = p c) ->
  remove_all p (map_chars f s) = map_chars f (remove_all p s).
Proof.
  intros Hp. induction s as [|c s IH]; [reflexivity|].
  cbn [map_chars remove_all]. rewrite Hp, IH. destruct (p c); reflexivity.
Qed.

(** The four kinds of characters met by the chain of [toKebabCase]. *)
Lemma kebab_char_kinds c :
  (is_space_or_underscore c = true /\ is_special c = false /\
   is_separator c = true) \/
  (is_space_or_underscore c = false /\ is_not_word_or_hyphen c = false /\
   is_special c = false /\ is_hyphen c = true /\ is_separator c = true) \/
  (is_space_or_underscore c = false /\ is_not_word_or_hyphen c = false /\
   is_special c = false /\ is_hyphen c = false /\ is_separator c = false) \/
  (is_space_or_underscore c = false /\ is_not_word_or_hyphen c = true /\
   is_special c = true).
Proof.
  destruct c as [[] [] [] [] [] [] [] []]; vm_compute;
    first [ left; repeat split; reflexivity
          | right; left; repeat split; reflexivity
          | right; right; left; repeat split; reflexivity
          | right; right; right; repeat split; reflexivity ].
Qed.

(** The pieces between the hyphens, once the runs of white space and
    underscores are hyphens and the other characters are removed, are the
    pieces between the separators of the text without its special
    characters. *)
Lemma split_after_replacements b1 b s :
  (b1 = true -> b = true) ->
  split_from is_hyphen b
    (remove_all is_not_word_or_hyphen
       (replace_runs_from is_space_or_underscore "-" b1 s)) =
  split_from is_separator b (remove_all is_special s).
Proof.
  revert b1 b. induction s as [|c s IH]; intros b1 b Hb; [reflexivity|].
  cbn [replace_runs_from remove_all].
  destruct (kebab_char_kinds c) as
    [(H1 & H2 & H3) | [(H1 & H2 & H3 & H4 & H5) | [(H1 & H2 & H3 & H4 & H5) | (H1 & H2 & H3)]]].
  - rewrite H1, H2. cbn [split_from]. rewrite H3. destruct b1.
    + rewrite (Hb eq_refl). apply (IH true true). reflexivity.
    + change ("-" ++ replace_runs_from is_space_or_underscore "-" true s)
        with (String "-" (replace_runs_from is_space_or_underscore "-" true s)).
      cbn [remove_all].
      change (is_not_word_or_hyphen "-") with false. cbn [split_from].
      change (is_hyphen "-") with true. cbn [split_from].
      rewrite (IH true true (fun _ => eq_refl)). reflexivity.
  - rewrite H1, H3. cbn [remove_all]. rewrite H2. cbn [split_from].
    rewrite H4, H5, (IH false true) by discriminate. reflexivity.
  - rewrite H1, H3. cbn [remove_all]. rewrite H2. cbn [split_from].
    rewrite H4, H5, (IH false false) by discriminate. reflexivity.
  - rewrite H1, H3. cbn [remove_all]. rewrite H2. apply (IH false b). discriminate.
Qed.

Lemma kebabChain_boundaries s :
  kebabChain s =
  drop_trailing is_hyphen
    (drop_leading is_hyphen
       (replace_runs is_hyphen "-"
          (toLowerCase
             (remove_all is_not_word_or_hyphen
                (replace_runs is_space_or_underscore "-" (kebabBoundaries s)))))).
Proof. reflexivity. Qed.

Lemma kebabChain_words s :
  kebabChain s = join "-" (map toLowerCase (camelWords (kebabBoundaries s))).
Proof.
  rewrite kebabChain_boundaries.
  rewrite (collapse_and_trim is_hyphen "-"%char eq_refl), pieces_flag.
  unfold toLowerCase at 1.
  rewrite (split_map is_hyphen lower_char false _ lower_char_hyphen).
  rewrite filter_nonempty_map. unfold replace_runs.
  rewrite (split_after_replacements false false (kebabBoundaries s))
    by discriminate.
  reflexivity.
Qed.

(** X8.  [toKebabCase] returns the words of the text in which the three
    first replacements have put their hyphens, in lower case and joined by
    single hyphens; the words are the ones [toCamelCase] and [toDotCase]
    find in that text: the runs of letters and digits left between white
    space, underscores and hyphens once the other characters are
    removed. *)
Theorem toKebabCase_words s st :
  toKebabCase (VString s) st =
  (Return (join "-" (map toLowerCase (camelWords (kebabBoundaries s)))), st).
Proof. rewrite toKebabCase_string, kebabChain_words. reflexivity. Qed.

(** ** [toKebabCase] next to [toDotCase] *)

Lemma all_chars_hyphenate r p q s :
  r "-"%char = true -> all_chars r (hyphenate p q s) = all_chars r s.
Proof.
  intros Hh.
  assert (H : forall n s, String.length s <= n ->
                all_chars r (hyphenate p q s) = all_chars r s).
  { induction n as [|n IH]; intros [|a [|b t]] Hn; try reflexivity;
      try (simpl in Hn; lia).
    change (hyphenate p q (String a (String b t)))
      with (if p a && q b
            then String a (String "-" (String b (hyphenate p q t)))
            else String a (hyphenate p q (String b t))).
    destruct (p a && q b).
    - cbn [all_chars]. rewrite Hh, IH by (simpl in Hn; lia). reflexivity.
    - cbn [all_chars]. rewrite (IH (String b t)) by (simpl in *; lia).
      reflexivity. }
  apply (H (String.length s)). lia.
Qed.

Lemma has_alnum_boundaries s : has_alnum (kebabBoundaries s) = has_alnum s.
Proof.
  unfold has_alnum, kebabBoundaries.
  rewrite !all_chars_hyphenate by reflexivity. reflexivity.
Qed.

Lemma kebabBoundaries_none s :
  no_pair is_lower is_upper s = true ->
  no_pair is_letter is_digit s = true ->
  no_pair is_digit is_letter s = true ->
  kebabBoundaries s = s.
Proof.
  intros H1 H2 H3. unfold kebabBoundaries.
  rewrite (hyphenate_no_pair _ _ s H1), (hyphenate_no_pair _ _ s H2).
  apply hyphenate_no_pair, H3.
Qed.

(** X9.  On a string that has a letter or digit, and in which no
    lower-case letter is followed by an upper-case one and no letter is
    next to a digit, [toDotCase] and [toKebabCase] return the same words
    in lower case, the first joined by dots and the second by hyphens. *)
Theorem dot_and_kebab_same_words s st :
  has_alnum s = true ->
  no_pair is_lower is_upper s = true ->
  no_pair is_letter is_digit s = true ->
  no_pair is_digit is_letter s = true ->
  toDotCase (VString s) st =
    (Return (join "." (map toLowerCase (dotWords s))), st) /\
  toKebabCase (VString s) st =
    (Return (join "-" (map toLowerCase (dotWords s))), st).
Proof.
  intros Ha H1 H2 H3. split.
  - rewrite toDotCase_string. fold (is_blank s).
    change (dotWords s) with (camelWords s).
    rewrite (has_alnum_not_blank s Ha), camelWords_has_alnum, Ha. reflexivity.
  - rewrite toKebabCase_string, kebabChain_words, (kebabBoundaries_none s H1 H2 H3).
    reflexivity.
Qed.

Lemma dot_and_kebab_same_words_witness :
  toDotCase (VString " user_full name! ") empty_store
    = (Return "user.full.name", empty_store) /\
  toKebabCase (VString " user_full name! ") empty_store
    = (Return "user-full-name", empty_store).
Proof.
  apply (dot_and_kebab_same_words " user_full name! " empty_store); reflexivity.
Defined.

(** ** The inputs that give the empty string *)

Lemma is_empty_replace_runs p by_ s :
  is_empty by_ = false ->
  is_empty (replace_runs_from p by_ false s) = is_empty s.
Proof.
  intros Hby. destruct s as [|c s]; [reflexivity|]. cbn [replace_runs_from].
  destruct (p c); [|reflexivity]. destruct by_; [discriminate | reflexivity].
Qed.

Lemma is_empty_map f s : is_empty (map_chars f s) = is_empty s.
Proof. destruct s; reflexivity. Qed.

(** X10.  [toSnakeCase] returns the empty string exactly on the strings
    that are empty or white space only, and [toKebabCase] exactly on the
    strings that have no ASCII letter or digit. *)
Theorem empty_outputs s st :
  (exists o, toSnakeCase (VString s) st = (Return o, st) /\
             is_empty o = is_blank s) /\
  (exists o, toKebabCase (VString s) st = (Return o, st) /\
             is_empty o = negb (has_alnum s)).
Proof.
  split.
  - eexists. split; [reflexivity|]. unfold replace_runs, toLowerCase.
    rewrite is_empty_replace_runs by reflexivity.
    rewrite is_empty_map. apply trim_empty.
  - eexists. split; [rewrite toKebabCase_string, kebabChain_words; reflexivity|].
    rewrite <- has_alnum_boundaries, <- camelWords_has_alnum.
    pose proof (camelWords_words (kebabBoundaries s)) as Hws.
    destruct (camelWords (kebabBoundaries s)) as [|w ws]; [reflexivity|].
    inversion Hws as [|? ? Hw _]; subst. pose proof (word_nonempty w Hw) as E.
    cbn [map]. rewrite join_nonempty; [reflexivity|].
    unfold toLowerCase. rewrite is_empty_map. exact E.
Qed.

(** ** The case of the input *)

Lemma lower_char_special c : is_special (lower_char c) = is_special c.
Proof. each_char c. Qed.

Lemma lower_char_separator c : is_separator (lower_char c) = is_separator c.
Proof. each_char c. Qed.

Lemma upper_lower_char c : upper_char (lower_char c) = upper_char c.
Proof. each_char c. Qed.

Lemma drop_leading_map (p : ascii -> bool) (f : ascii -> ascii) s :
  (forall c, p (f c) = p c) ->
  drop_leading p (map_chars f s) = map_chars f (drop_leading p s).
Proof.
  intros Hp. induction s as [|c s IH]; [reflexivity|].
  cbn [map_chars drop_leading]. rewrite Hp. destruct (p c); [exact IH | reflexivity].
Qed.

Lemma drop_trailing_map (p : ascii -> bool) (f : ascii -> ascii) s :
  (forall c, p (f c) = p c) ->
  drop_trailing p (map_chars f s) = map_chars f (drop_trailing p s).
Proof.
  intros Hp. induction s as [|c s IH]; [reflexivity|].
  cbn [map_chars drop_trailing]. rewrite Hp, IH, is_empty_map.
  destruct (p c && is_empty (drop_trailing p s)); reflexivity.
Qed.

Lemma trim_toLowerCase s : trim (toLowerCase s) = toLowerCase (trim s).
Proof.
  unfold trim, toLowerCase.
  rewrite (drop_leading_map is_space lower_char s lower_char_space).
  apply drop_trailing_map, lower_char_space.
Qed.

Lemma camelWords_toLowerCase s :
  camelWords (toLowerCase s) = map toLowerCase (camelWords s).
Proof.
  unfold camelWords, split, toLowerCase.
  rewrite (remove_all_map is_special lower_char s lower_char_special).
  rewrite (split_map is_separator lower_char false _ lower_char_separator).
  apply filter_nonempty_map.
Qed.

Lemma camelWord_toLowerCase w i : camelWord (toLowerCase w) i = camelWord w i.
Proof.
  destruct i as [|i].
  - apply toLowerCase_idem.
  - rewrite !camelWord_succ. destruct w as [|c t]; [reflexivity|]. simpl.
    rewrite upper_lower_char. f_equal. apply toLowerCase_idem.
Qed.

Lemma mapi_from_toLowerCase i ws :
  mapi_from camelWord i (map toLowerCase ws) = mapi_from camelWord i ws.
Proof.
  revert i. induction ws as [|w ws IH]; intros i; [reflexivity|].
  cbn [map mapi_from]. rewrite camelWord_toLowerCase, IH. reflexivity.
Qed.

Lemma map_toLowerCase_idem ws :
  map toLowerCase (map toLowerCase ws) = map toLowerCase ws.
Proof.
  induction ws as [|w ws IH]; [reflexivity|]. cbn [map].
  rewrite toLowerCase_idem, IH. reflexivity.
Qed.

Lemma is_blank_toLowerCase s : is_blank (toLowerCase s) = is_blank s.
Proof.
  unfold is_blank, toLowerCase. rewrite all_chars_map.
  induction s as [|c s IH]; [reflexivity|]. simpl.
  rewrite lower_char_space, IH. reflexivity.
Qed.

(** X11.  On the strings of code units below U+0100, [toSnakeCase],
    [toCamelCase] and [toDotCase] do not depend on the case of the input:
    such a string and its lower-case form give the same result, the same
    string or the same failure.  (Above U+00FF this fails: the lower case
    of U+212A is the letter k.) *)
Theorem case_of_the_input_ignored s st :
  toSnakeCase (VString (toLowerCase s)) st = toSnakeCase (VString s) st /\
  toCamelCase (VString (toLowerCase s)) st = toCamelCase (VString s) st /\
  toDotCase (VString (toLowerCase s)) st = toDotCase (VString s) st.
Proof.
  split; [|split].
  - unfold toSnakeCase. rewrite trim_toLowerCase, toLowerCase_idem. reflexivity.
  - rewrite !toCamelCase_string. fold (is_blank (toLowerCase s)).
    rewrite is_blank_toLowerCase, camelWords_toLowerCase. fold (is_blank s).
    unfold mapi. rewrite mapi_from_toLowerCase.
    destruct (camelWords s); reflexivity.
  - rewrite !toDotCase_string. fold (is_blank (toLowerCase s)).
    change (dotWords (toLowerCase s)) with (camelWords (toLowerCase s)).
    change (dotWords s) with (camelWords s).
    rewrite is_blank_toLowerCase, camelWords_toLowerCase, map_toLowerCase_idem.
    fold (is_blank s). destruct (camelWords s); reflexivity.
Qed.

(** [toKebabCase] does depend on it. *)
Lemma toKebabCase_case_matters :
  toKebabCase (VString (toLowerCase "helloWorld")) empty_store
    = (Return "helloworld", empty_store) /\
  toKebabCase (VString "helloWorld") empty_store
    = (Return "hello-world", empty_store).
Proof. split; reflexivity. Qed.

(** ** White space around the input *)

Lemma trim_idem s : trim (trim s) = trim s.
Proof.
  unfold trim.
  rewrite (drop_leading_fixed is_space (drop_trailing is_space (drop_leading is_space s)))
    by apply starts_with_drop_trailing, starts_with_drop_leading.
  apply drop_trailing_idem.
Qed.

Lemma drop_leading_split p s :
  exists pre, all_chars p pre = true /\ s = pre ++ drop_leading p s.
Proof.
  induction s as [|c s (pre & H1 & H2)]; [exists ""; split; reflexivity|].
  cbn [drop_leading]. destruct (p c) eqn:Hc.
  - exists (String c pre). simpl. rewrite Hc, H1. split; [reflexivity|].
    f_equal. exact H2.
  - exists "". split; reflexivity.
Qed.

Lemma drop_trailing_split p s :
  exists post, all_chars p post = true /\ s = drop_trailing p s ++ post.
Proof.
  induction s as [|c s (post & H1 & H2)]; [exists ""; split; reflexivity|].
  cbn [drop_trailing]. destruct (p c && is_empty (drop_trailing p s)) eqn:E.
  - apply andb_true_iff in E as [Hc E]. exists (String c s). split; [|reflexivity].
    simpl. rewrite Hc. rewrite is_empty_drop_trailing in E. exact E.
  - exists post. split; [exact H1|]. simpl. f_equal. exact H2.
Qed.

Lemma trim_split s :
  exists pre post,
    all_chars is_space pre = true /\ all_chars is_space post = true /\
    s = pre ++ trim s ++ post.
Proof.
  destruct (drop_leading_split is_space s) as (pre & Hpre & Hs).
  destruct (drop_trailing_split is_space (drop_leading is_space s))
    as (post & Hpost & Ht).
  exists pre, post. split; [exact Hpre|]. split; [exact Hpost|].
  unfold trim. rewrite <- Ht. exact Hs.
Qed.

Lemma is_blank_trim s : is_blank (trim s) = is_blank s.
Proof.
  unfold is_blank. destruct (trim_split s) as (pre & post & Hpre & Hpost & Hs).
  rewrite Hs at 2. rewrite !all_chars_app, Hpre, Hpost, andb_true_r. reflexivity.
Qed.

Lemma split_of_a_run p b s :
  all_chars p s = true ->
  split_from p b s = if b || is_empty s then [""] else [""; ""].
Proof.
  revert b. induction s as [|c s IH]; intros b H.
  - rewrite orb_true_r. reflexivity.
  - simpl in H. apply andb_true_iff in H as [Hc Hs]. cbn [split_from].
    rewrite Hc, (IH true Hs). destruct b; reflexivity.
Qed.

Lemma split_trailing_run p b s post :
  all_chars p post = true ->
  exists e, filter nonempty e = [] /\
            split_from p b (s ++ post) = (split_from p b s ++ e)%list.
Proof.
  intros Hpost. revert b. induction s as [|c s IH]; intros b.
  - cbn [append split_from]. rewrite (split_of_a_run p b post Hpost).
    destruct (b || is_empty post); [exists [] | exists [""]]; split; reflexivity.
  - change (String c s ++ post) with (String c (s ++ post)). cbn [split_from].
    destruct (p c).
    + destruct (IH true) as (e & He & ->). exists e. split; [exact He|].
      destruct b; reflexivity.
    + destruct (IH false) as (e & He & ->). exists e. split; [exact He|].
      pose proof (split_from_not_nil p false s) as Hne.
      destruct (split_from p false s); [contradiction | reflexivity].
Qed.

Lemma pieces_trailing_run p b s post :
  all_chars p post = true ->
  filter nonempty (split_from p b (s ++ post)) =
  filter nonempty (split_from p b s).
Proof.
  intros Hpost. destruct (split_trailing_run p b s post Hpost) as (e & He & ->).
  rewrite filter_app, He. apply app_nil_r.
Qed.

Lemma pieces_leading_run p s pre :
  all_chars p pre = true ->
  filter nonempty (split_from p false (pre ++ s)) =
  filter nonempty (split_from p false s).
Proof.
  intros Hpre.
  destruct (pieces_run_or_nothing p false pre s Hpre) as [b' ->].
  destruct b'; [apply pieces_flag | reflexivity].
Qed.

Lemma spaces_are_separators s :
  all_chars is_space s = true -> all_chars is_separator s = true.
Proof.
  apply all_chars_weaken. intros c Hc. unfold is_separator. rewrite Hc. reflexivity.
Qed.

(** White space before and after a text does not change its words. *)
Lemma camelWords_padded pre s post :
  all_chars is_space pre = true -> all_chars is_space post = true ->
  camelWords (pre ++ s ++ post) = camelWords s.
Proof.
  intros Hpre Hpost. unfold camelWords, split.
  pose proof (spaces_are_separators pre Hpre) as Hpre'.
  pose proof (spaces_are_separators post Hpost) as Hpost'.
  rewrite !remove_all_app.
  rewrite (remove_all_none is_special pre (separators_not_special pre Hpre')).
  rewrite (remove_all_none is_special post (separators_not_special post Hpost')).
  rewrite (pieces_leading_run is_separator _ pre Hpre').
  apply pieces_trailing_run, Hpost'.
Qed.

Lemma hyphenate_app_l p q pre s :
  all_chars (none_of p) pre = true ->
  hyphenate p q (pre ++ s) = pre ++ hyphenate p q s.
Proof.
  unfold none_of. induction pre as [|c pre IH]; [reflexivity|].
  intros H. simpl in H. apply andb_true_iff in H as [Hc Hpre].
  apply negb_true_iff in Hc.
  change (String c pre ++ s) with (String c (pre ++ s)).
  change (String c pre ++ hyphenate p q s) with (String c (pre ++ hyphenate p q s)).
  rewrite <- (IH Hpre). destruct (pre ++ s) as [|b t]; [reflexivity|].
  change (hyphenate p q (String c (String b t)))
    with (if p c && q b
          then String c (String "-" (String b (hyphenate p q t)))
          else String c (hyphenate p q (String b t))).
  rewrite Hc. reflexivity.
Qed.

Lemma hyphenate_app_r p q s post :
  all_chars (none_of q) post = true ->
  hyphenate p q (s ++ post) = hyphenate p q s ++ post.
Proof.
  intros Hpost.
  assert (H0 : hyphenate p q post = post)
    by (apply hyphenate_no_pair, no_pair_none_r, Hpost).
  assert (H : forall n s, String.length s <= n ->
                hyphenate p q (s ++ post) = hyphenate p q s ++ post).
  { induction n as [|n IH]; intros [|a [|b t]] Hn; try exact H0;
      try (simpl in Hn; lia).
    - change (String a "" ++ post) with (String a post).
      destruct post as [|b t]; [reflexivity|].
      change (hyphenate p q (String a (String b t)))
        with (if p a && q b
              then String a (String "-" (String b (hyphenate p q t)))
              else String a (hyphenate p q (String b t))).
      unfold none_of in Hpost. simpl in Hpost.
      apply andb_true_iff in Hpost as [Hb _]. apply negb_true_iff in Hb.
      rewrite Hb, andb_false_r, H0. reflexivity.
    - change (String a (String b t) ++ post) with (String a (String b (t ++ post))).
      change (hyphenate p q (String a (String b (t ++ post))))
        with (if p a && q b
              then String a (String "-" (String b (hyphenate p q (t ++ post))))
              else String a (hyphenate p q (String b t ++ post))).
      change (hyphenate p q (String a (String b t)))
        with (if p a && q b
              then String a (String "-" (String b (hyphenate p q t)))
              else String a (hyphenate p q (String b t))).
      destruct (p a && q b).
      + rewrite IH by (simpl in Hn; lia). reflexivity.
      + rewrite (IH (String b t)) by (simpl in *; lia). reflexivity. }
  apply (H (String.length s)). lia.
Qed.

Lemma space_classes c :
  is_space c = true ->
  is_lower c = false /\ is_upper c = false /\ is_letter c = false /\
  is_digit c = false.
Proof.
  destruct c as [[] [] [] [] [] [] [] []]; vm_compute; intros H;
    first [ discriminate H | repeat split ].
Qed.

Lemma kebabBoundaries_padded pre s post :
  all_chars is_space pre = true -> all_chars is_space post = true ->
  kebabBoundaries (pre ++ s ++ post) = pre ++ kebabBoundaries s ++ post.
Proof.
  intros Hpre Hpost.
  assert (Hcls : forall (cls : ascii -> bool) t,
             (forall c, is_space c = true -> cls c = false) ->
             all_chars is_space t = true -> all_chars (none_of cls) t = true).
  { intros cls t Hcls. apply all_chars_weaken. intros c Hc. unfold none_of.
    rewrite (Hcls c Hc). reflexivity. }
  unfold kebabBoundaries.
  rewrite (hyphenate_app_l is_lower is_upper pre)
    by (apply Hcls; [intros c Hc; apply (space_classes c Hc) | exact Hpre]).
  rewrite (hyphenate_app_r is_lower is_upper s post)
    by (apply Hcls; [intros c Hc; apply (space_classes c Hc) | exact Hpost]).
  rewrite (hyphenate_app_l is_letter is_digit pre)
    by (apply Hcls; [intros c Hc; apply (space_classes c Hc) | exact Hpre]).
  rewrite (hyphenate_app_r is_letter is_digit _ post)
    by (apply Hcls; [intros c Hc; apply (space_classes c Hc) | exact Hpost]).
  rewrite (hyphenate_app_l is_digit is_letter pre)
    by (apply Hcls; [intros c Hc; apply (space_classes c Hc) | exact Hpre]).
  rewrite (hyphenate_app_r is_digit is_letter _ post)
    by (apply Hcls; [intros c Hc; apply (space_classes c Hc) | exact Hpost]).
  reflexivity.
Qed.

(** X12.  The white space at both ends of the input is ignored by the
    four converters: a string and its trimmed form give the same result,
    the same string or the same failure. *)
Theorem surrounding_whitespace_ignored s st :
  toSnakeCase (VString (trim s)) st = toSnakeCase (VString s) st /\
  toCamelCase (VString (trim s)) st = toCamelCase (VString s) st /\
  toDotCase (VString (trim s)) st = toDotCase (VString s) st /\
  toKebabCase (VString (trim s)) st = toKebabCase (VString s) st.
Proof.
  destruct (trim_split s) as (pre & post & Hpre & Hpost & Hs).
  assert (Hwords : camelWords (trim s) = camelWords s).
  { rewrite Hs at 2. symmetry. apply camelWords_padded; assumption. }
  split; [|split; [|split]].
  - unfold toSnakeCase. rewrite trim_idem. reflexivity.
  - rewrite !toCamelCase_string. fold (is_blank (trim s)) (is_blank s).
    rewrite is_blank_trim, Hwords. reflexivity.
  - rewrite !toDotCase_string. fold (is_blank (trim s)) (is_blank s).
    change (dotWords (trim s)) with (camelWords (trim s)).
    change (dotWords s) with (camelWords s).
    rewrite is_blank_trim, Hwords. reflexivity.
  - rewrite !toKebabCase_string, !kebabChain_words. rewrite Hs at 2.
    rewrite (kebabBoundaries_padded pre (trim s) post Hpre Hpost).
    rewrite (camelWords_padded pre _ post Hpre Hpost). reflexivity.
Qed.

(** ** The length of the outputs *)

Lemma length_app s t : String.length (s ++ t) = String.length s + String.length t.
Proof. induction s as [|c s IH]; simpl; [|rewrite IH]; reflexivity. Qed.

Lemma length_map_chars f s : String.length (map_chars f s) = String.length s.
Proof. induction s as [|c s IH]; simpl; [|rewrite IH]; reflexivity. Qed.

Lemma length_drop_leading p s : String.length (drop_leading p s) <= String.length s.
Proof.
  induction s as [|c s IH]; simpl; [lia|]. destruct (p c); simpl; lia.
Qed.

Lemma length_drop_trailing p s : String.length (drop_trailing p s) <= String.length s.
Proof.
  induction s as [|c s IH]; simpl; [lia|].
  destruct (p c && is_empty (drop_trailing p s)); simpl; lia.
Qed.

Lemma length_remove_all p s : String.length (remove_all p s) <= String.length s.
Proof.
  induction s as [|c s IH]; simpl; [lia|]. destruct (p c); simpl; lia.
Qed.

Lemma length_replace_runs p by_ b s :
  String.length by_ <= 1 ->
  String.length (replace_runs_from p by_ b s) <= String.length s.
Proof.
  intros Hby. revert b. induction s as [|c s IH]; intros b; simpl; [lia|].
  destruct (p c).
  - rewrite length_app. specialize (IH true). destruct b; simpl; lia.
  - simpl. specialize (IH false). lia.
Qed.

Lemma length_join_cons sep w x ws :
  String.length (join sep (w :: x :: ws)) =
  String.length w + String.length sep + String.length (join sep (x :: ws)).
Proof.
  unfold join.
  change (String.concat sep (w :: x :: ws))
    with (w ++ sep ++ String.concat sep (x :: ws)).
  rewrite !length_app. lia.
Qed.

Lemma length_join_pieces sep l :
  String.length (join sep (filter nonempty l)) <= String.length (join sep l).
Proof.
  induction l as [|w l IH]; [reflexivity|]. cbn [filter].
  destruct l as [|x l'].
  - destruct (nonempty w); simpl; lia.
  - rewrite length_join_cons. destruct (nonempty w) eqn:Hw; [|lia].
    destruct (filter nonempty (x :: l')) as [|y r] eqn:E.
    + unfold join. simpl. lia.
    + rewrite length_join_cons. lia.
Qed.

Lemma length_join_nothing sep l :
  String.length (join "" l) <= String.length (join sep l).
Proof.
  induction l as [|w l IH]; [reflexivity|]. destruct l as [|x l'].
  - unfold join. simpl. lia.
  - rewrite !length_join_cons. change (String.length "") with 0. lia.
Qed.

Lemma length_join_same sep (g h : string -> string) l :
  (forall w, String.length (g w) = String.length (h w)) ->
  String.length (join sep (map g l)) = String.length (join sep (map h l)).
Proof.
  intros Hg. induction l as [|w l IH]; [reflexivity|]. destruct l as [|x l'].
  - unfold join. simpl. apply Hg.
  - cbn [map] in *. rewrite !length_join_cons, Hg, IH. reflexivity.
Qed.

Lemma length_camelWord w i : String.length (camelWord w i) = String.length w.
Proof.
  destruct i as [|i].
  - apply length_map_chars.
  - rewrite camelWord_succ. destruct w as [|c t]; [reflexivity|]. simpl.
    unfold toLowerCase. rewrite length_map_chars. reflexivity.
Qed.

Lemma length_join_mapi i l :
  String.length (join "" (mapi_from camelWord i l)) = String.length (join "" l).
Proof.
  revert i. induction l as [|w l IH]; intros i; [reflexivity|].
  cbn [mapi_from]. rewrite !join_cons_empty, !length_app, length_camelWord, IH.
  reflexivity.
Qed.

(** The words of a text, joined by one character, are not longer than the
    text. *)
Lemma length_joined_words sep s :
  String.length sep <= 1 ->
  String.length (join sep (map toLowerCase (camelWords s))) <= String.length s.
Proof.
  intros Hsep.
  rewrite (length_join_same sep toLowerCase (fun w => w))
    by (intros w; apply length_map_chars).
  rewrite map_id. unfold camelWords, split.
  pose proof (length_join_pieces sep
                (split_from is_separator false (remove_all is_special s))) as H1.
  rewrite <- (replace_runs_split_join is_separator sep false) in H1.
  pose proof (length_replace_runs is_separator sep false
                (remove_all is_special s) Hsep) as H2.
  pose proof (length_remove_all is_special s) as H3. lia.
Qed.

Lemma hyphen_free_classes c :
  is_hyphen c = true ->
  is_lower c = false /\ is_upper c = false /\ is_letter c = false /\
  is_digit c = false.
Proof.
  destruct c as [[] [] [] [] [] [] [] []]; vm_compute; intros H;
    first [ discriminate H | repeat split ].
Qed.

Lemma joint_hyphenate p q a s : joint a (hyphenate p q s) = joint a s.
Proof.
  destruct s as [|b [|c t]]; try reflexivity.
  simpl. destruct (p b && q c); reflexivity.
Qed.

(** An insertion puts its hyphens at joints: each makes the text one
    character longer and leaves one joint less. *)
Lemma hyphenate_length_joints p q s :
  (forall c, is_hyphen c = true -> p c = false) ->
  (forall c, is_hyphen c = true -> q c = false) ->
  String.length (hyphenate p q s) + joints (hyphenate p q s) =
  String.length s + joints s.
Proof.
  intros Hp Hq.
  assert (H : forall n s, String.length s <= n ->
                String.length (hyphenate p q s) + joints (hyphenate p q s) =
                String.length s + joints s).
  { induction n as [|n IH]; intros [|a [|b t]] Hn; try reflexivity;
      try (simpl in Hn; lia).
    change (hyphenate p q (String a (String b t)))
      with (if p a && q b
            then String a (String "-" (String b (hyphenate p q t)))
            else String a (hyphenate p q (String b t))).
    destruct (p a && q b) eqn:Hab.
    - apply andb_true_iff in Hab as [Ha Hb].
      assert (Ea : is_hyphen a = false)
        by (destruct (is_hyphen a) eqn:E; [rewrite (Hp a E) in Ha; discriminate | reflexivity]).
      assert (Eb : is_hyphen b = false)
        by (destruct (is_hyphen b) eqn:E; [rewrite (Hq b E) in Hb; discriminate | reflexivity]).
      specialize (IH t ltac:(simpl in Hn; lia)).
      cbn [String.length joints]. rewrite joint_hyphenate.
      cbn [joint]. change (is_hyphen "-") with true. rewrite Ea, Eb.
      cbn [negb andb]. lia.
    - specialize (IH (String b t) ltac:(simpl in *; lia)).
      cbn [String.length joints] in *. rewrite joint_hyphenate. lia. }
  apply (H (String.length s)). lia.
Qed.

Lemma joints_bound s : joints s <= String.length s - 1.
Proof.
  induction s as [|c s IH]; [reflexivity|]. cbn [joints String.length].
  destruct s as [|d t]; [reflexivity|]. cbn [joint String.length] in *.
  destruct (negb (is_hyphen c) && negb (is_hyphen d)); lia.
Qed.

Lemma length_kebabBoundaries s :
  String.length (kebabBoundaries s) <= 2 * String.length s - 1.
Proof.
  unfold kebabBoundaries.
  pose proof (hyphenate_length_joints is_lower is_upper s
                (fun c H => proj1 (hyphen_free_classes c H))
                (fun c H => proj1 (proj2 (hyphen_free_classes c H)))) as H1.
  set (s1 := hyphenate is_lower is_upper s) in *.
  pose proof (hyphenate_length_joints is_letter is_digit s1
                (fun c H => proj1 (proj2 (proj2 (hyphen_free_classes c H))))
                (fun c H => proj2 (proj2 (proj2 (hyphen_free_classes c H))))) as H2.
  set (s2 := hyphenate is_letter is_digit s1) in *.
  pose proof (hyphenate_length_joints is_digit is_letter s2
                (fun c H => proj2 (proj2 (proj2 (hyphen_free_classes c H))))
                (fun c H => proj1 (proj2 (proj2 (hyphen_free_classes c H))))) as H3.
  pose proof (joints_bound s). lia.
Qed.

(** X13.  A string returned by [toCamelCase] or [toDotCase] is not
    longer than the input.  A string returned by [toKebabCase] on an input
    of n characters has at most 2n-1 characters when n is not 0, and
    none when n is 0. *)
Theorem output_length s st o st' :
  (toCamelCase (VString s) st = (Return o, st') ->
   String.length o <= String.length s) /\
  (toDotCase (VString s) st = (Return o, st') ->
   String.length o <= String.length s) /\
  (toKebabCase (VString s) st = (Return o, st') ->
   String.length o + (if is_empty s then 0 else 1) <= 2 * String.length s).
Proof.
  split; [|split]; intros H.
  - rewrite toCamelCase_string in H.
    destruct (all_chars is_space s); [discriminate|].
    destruct (is_empty_list (camelWords s)); [discriminate|].
    injection H as <- _. unfold mapi. rewrite length_join_mapi.
    pose proof (length_join_nothing "." (camelWords s)) as H1.
    pose proof (length_joined_words "." s (le_n 1)) as H2.
    rewrite (length_join_same "." toLowerCase (fun w => w)) in H2
      by (intros w; apply length_map_chars).
    rewrite map_id in H2. lia.
  - rewrite toDotCase_string in H.
    destruct (all_chars is_space s); [discriminate|].
    destruct (is_empty_list (dotWords s)); [discriminate|].
    injection H as <- _. apply (length_joined_words "." s (le_n 1)).
  - rewrite toKebabCase_string, kebabChain_words in H. injection H as <- _.
    pose proof (length_joined_words "-" (kebabBoundaries s) (le_n 1)).
    pose proof (length_kebabBoundaries s).
    destruct s as [|c t]; simpl in *; lia.
Qed.

Lemma output_length_witness :
  String.length "a-1-b-2" + (if is_empty "a1b2" then 0 else 1)
    <= 2 * String.length "a1b2".
Proof.
  apply (proj2 (proj2 (output_length "a1b2" empty_store "a-1-b-2" empty_store))).
  reflexivity.
Defined.

(** ** Converting an output of another style *)

Lemma space_kind c :
  is_space c = true -> is_special c = false /\ is_separator c = true.
Proof.
  destruct c as [[] [] [] [] [] [] [] []]; vm_compute; intros H;
    first [ discriminate H | repeat split ].
Qed.

(** The underscores put by [toSnakeCase] separate the same pieces as the
    white space they replace. *)
Lemma split_after_snake b1 b s :
  (b1 = true -> b = true) ->
  split_from is_separator b
    (remove_all is_special (replace_runs_from is_space "_" b1 s)) =
  split_from is_separator b (remove_all is_special s).
Proof.
  revert b1 b. induction s as [|c s IH]; intros b1 b Hb; [reflexivity|].
  cbn [replace_runs_from remove_all]. destruct (is_space c) eqn:Hsp.
  - destruct (space_kind c Hsp) as [H1 H2]. rewrite H1. cbn [split_from].
    rewrite H2. destruct b1.
    + rewrite (Hb eq_refl). apply (IH true true). reflexivity.
    + change ("_" ++ replace_runs_from is_space "_" true s)
        with (String "_" (replace_runs_from is_space "_" true s)).
      cbn [remove_all]. change (is_special "_") with false. cbn [split_from].
      change (is_separator "_") with true. cbn [split_from].
      rewrite (IH true true (fun _ => eq_refl)). reflexivity.
  - cbn [remove_all]. destruct (is_special c); [apply (IH false b); discriminate|].
    cbn [split_from]. destruct (is_separator c).
    + rewrite (IH false true) by discriminate. reflexivity.
    + rewrite (IH false false) by discriminate. reflexivity.
Qed.

Lemma camelWords_snake s :
  camelWords (replace_runs is_space "_" s) = camelWords s.
Proof.
  unfold camelWords, split, replace_runs.
  rewrite (split_after_snake false false s) by discriminate. reflexivity.
Qed.

Lemma is_blank_no_whitespace s :
  all_chars (none_of is_space) s = true -> is_blank s = is_empty s.
Proof.
  unfold is_blank, none_of. destruct s as [|c t]; [reflexivity|]. simpl.
  intros H. apply andb_true_iff in H as [Hc _]. apply negb_true_iff in Hc.
  rewrite Hc. reflexivity.
Qed.

Lemma camelWords_trim s : camelWords (trim s) = camelWords s.
Proof.
  destruct (trim_split s) as (pre & post & Hpre & Hpost & Hs).
  rewrite Hs at 2. symmetry. apply camelWords_padded; assumption.
Qed.

(** X14.  An output of [toSnakeCase] converts on as the input in lower
    case: on it [toCamelCase] and [toDotCase] give the result they give on
    the lower-case form of the input, the same string or the same
    failure. *)
Theorem snake_converts_on s st o st' :
  toSnakeCase (VString s) st = (Return o, st') ->
  forall st2,
    toCamelCase (VString o) st2 = toCamelCase (VString (toLowerCase s)) st2 /\
    toDotCase (VString o) st2 = toDotCase (VString (toLowerCase s)) st2.
Proof.
  intros H st2. unfold toSnakeCase, ret in H. injection H as <- _.
  set (o := replace_runs is_space "_" (toLowerCase (trim s))).
  assert (Hblank : is_blank o = is_blank (toLowerCase s)).
  { rewrite is_blank_no_whitespace by (apply replace_runs_clean; reflexivity).
    unfold o, replace_runs.
    rewrite is_empty_replace_runs by reflexivity.
    rewrite <- trim_toLowerCase. apply trim_empty. }
  assert (Hwords : camelWords o = camelWords (toLowerCase s)).
  { unfold o. rewrite camelWords_snake, <- trim_toLowerCase.
    apply camelWords_trim. }
  split.
  - rewrite !toCamelCase_string. fold (is_blank o) (is_blank (toLowerCase s)).
    rewrite Hblank, Hwords. reflexivity.
  - rewrite !toDotCase_string. fold (is_blank o) (is_blank (toLowerCase s)).
    change (dotWords o) with (camelWords o).
    change (dotWords (toLowerCase s)) with (camelWords (toLowerCase s)).
    rewrite Hblank, Hwords. reflexivity.
Qed.

Lemma snake_converts_on_witness :
  toCamelCase (VString "hello_big_world!") empty_store
    = toCamelCase (VString (toLowerCase " Hello  big   World! ")) empty_store /\
  toDotCase (VString "hello_big_world!") empty_store
    = toDotCase (VString (toLowerCase " Hello  big   World! ")) empty_store.
Proof.
  apply (snake_converts_on " Hello  big   World! " empty_store
           "hello_big_world!" empty_store).
  reflexivity.
Defined.

(** X15.  An output of [toCamelCase] does not convert on: its words are
    one word for [toDotCase] and for [toSnakeCase], which both return it in
    lower case, without a dot or an underscore. *)
Theorem camel_does_not_convert_on s st o st' :
  toCamelCase (VString s) st = (Return o, st') ->
  forall st2,
    toDotCase (VString o) st2 = (Return (toLowerCase o), st2) /\
    toSnakeCase (VString o) st2 = (Return (toLowerCase o), st2).
Proof.
  intros H st2. rewrite toCamelCase_string in H.
  destruct (all_chars is_space s); [discriminate|].
  destruct (is_empty_list (camelWords s)) eqn:E; [discriminate|].
  injection H as <- _. pose proof (camel_output_word s E) as Hw.
  pose proof (word_alnum _ Hw) as Ha.
  set (o := join "" (mapi camelWord (camelWords s))) in *.
  split; [apply toDotCase_word, Hw|].
  assert (Hsp : all_chars (none_of is_space) o = true).
  { revert Ha. apply all_chars_weaken. intros c Hc. unfold none_of.
    rewrite (alnum_not_space c Hc). reflexivity. }
  unfold toSnakeCase, ret. rewrite (trim_none o Hsp). unfold replace_runs.
  rewrite replace_runs_none; [reflexivity|].
  unfold toLowerCase. rewrite all_chars_map.
  revert Hsp. apply all_chars_weaken. intros c Hc. unfold none_of in *.
  rewrite lower_char_space. exact Hc.
Qed.

Lemma camel_does_not_convert_on_witness :
  toDotCase (VString "helloBigWorld") empty_store
    = (Return "hellobigworld", empty_store) /\
  toSnakeCase (VString "helloBigWorld") empty_store
    = (Return "hellobigworld", empty_store).
Proof.
  apply (camel_does_not_convert_on "hello big_world" empty_store
           "helloBigWorld" empty_store).
  reflexivity.
Defined.

(** ** [toKebabCase] on an output of [toSnakeCase] *)

Lemma kebabChain_trim s : kebabChain (trim s) = kebabChain s.
Proof.
  destruct (trim_split s) as (pre & post & Hpre & Hpost & Hs).
  rewrite !kebabChain_words. rewrite Hs at 2.
  rewrite (kebabBoundaries_padded pre (trim s) post Hpre Hpost).
  rewrite (camelWords_padded pre _ post Hpre Hpost). reflexivity.
Qed.

Lemma hyphenate_cons2 p q a b t :
  hyphenate p q (String a (String b t)) =
  if p a && q b
  then String a (String "-" (String b (hyphenate p q t)))
  else String a (hyphenate p q (String b t)).
Proof. reflexivity. Qed.

Lemma hyphenate_cons_no p q a s :
  head_ok p q a s = true ->
  hyphenate p q (String a s) = String a (hyphenate p q s).
Proof.
  destruct s as [|b t]; [reflexivity|]. simpl head_ok. intros H.
  apply negb_true_iff in H. rewrite hyphenate_cons2, H. reflexivity.
Qed.

Lemma replace_runs_cons p by_ b c s :
  replace_runs_from p by_ b (String c s) =
  if p c
  then (if b then "" else by_) ++ replace_runs_from p by_ true s
  else String c (replace_runs_from p by_ false s).
Proof. reflexivity. Qed.

(** The insertion of hyphens between two classes of characters does not
    see the replacement of the runs of a third class by a character that
    is in neither. *)
Lemma hyphenate_replace_runs p q cls u b s :
  (forall c, cls c = true -> p c = false) ->
  (forall c, cls c = true -> q c = false) ->
  cls "-"%char = false -> p u = false -> q u = false ->
  hyphenate p q (replace_runs_from cls (String u "") b s) =
  replace_runs_from cls (String u "") b (hyphenate p q s).
Proof.
  intros Hcp Hcq Hh Hpu Hqu.
  assert (H : forall n s b, String.length s <= n ->
                hyphenate p q (replace_runs_from cls (String u "") b s) =
                replace_runs_from cls (String u "") b (hyphenate p q s)).
  { induction n as [|n IH]; intros [|a [|b' t]] b0 Hn; try reflexivity;
      try (simpl in Hn; lia).
    - cbn [hyphenate replace_runs_from]. destruct (cls a), b0; reflexivity.
    - rewrite (hyphenate_cons2 p q a b' t). destruct (p a && q b') eqn:Hab.
      + apply andb_true_iff in Hab as [Ha Hb].
        assert (Ca : cls a = false)
          by (destruct (cls a) eqn:E; [rewrite (Hcp a E) in Ha; discriminate | reflexivity]).
        assert (Cb : cls b' = false)
          by (destruct (cls b') eqn:E; [rewrite (Hcq b' E) in Hb; discriminate | reflexivity]).
        rewrite !replace_runs_cons, Ca, Cb, Hh, hyphenate_cons2, Ha, Hb.
        cbn [andb]. rewrite (IH t false) by (simpl in Hn; lia). reflexivity.
      + rewrite (replace_runs_cons cls _ b0 a (String b' t)).
        rewrite (replace_runs_cons cls _ b0 a (hyphenate p q (String b' t))).
        destruct (cls a) eqn:Ca.
        * rewrite <- (IH (String b' t) true) by (simpl in *; lia).
          destruct b0; [reflexivity|].
          apply (hyphenate_app_l p q (String u "")).
          unfold none_of. simpl. rewrite Hpu. reflexivity.
        * rewrite <- (IH (String b' t) false) by (simpl in *; lia).
          apply hyphenate_cons_no. rewrite replace_runs_cons.
          destruct (cls b'); simpl; [rewrite Hqu, andb_false_r | rewrite Hab];
            reflexivity. }
  apply (H (String.length s)). lia.
Qed.

Lemma kebabBoundaries_snake s :
  kebabBoundaries (replace_runs is_space "_" s) =
  replace_runs is_space "_" (kebabBoundaries s).
Proof.
  unfold kebabBoundaries, replace_runs.
  rewrite (hyphenate_replace_runs is_lower is_upper is_space "_"%char false s)
    by (try reflexivity; intros c Hc; apply (space_classes c Hc)).
  rewrite (hyphenate_replace_runs is_letter is_digit is_space "_"%char false)
    by (try reflexivity; intros c Hc; apply (space_classes c Hc)).
  rewrite (hyphenate_replace_runs is_digit is_letter is_space "_"%char false)
    by (try reflexivity; intros c Hc; apply (space_classes c Hc)).
  reflexivity.
Qed.

(** X16.  On an output of [toSnakeCase], [toKebabCase] gives what it gives
    on the input in lower case: the underscores become the hyphens, and
    the boundaries between a lower-case and an upper-case letter of the
    input are lost. *)
Theorem snake_converts_on_to_kebab s st o st' :
  toSnakeCase (VString s) st = (Return o, st') ->
  forall st2,
    toKebabCase (VString o) st2 = toKebabCase (VString (toLowerCase s)) st2.
Proof.
  intros H st2. unfold toSnakeCase, ret in H. injection H as <- _.
  rewrite !toKebabCase_string. f_equal. f_equal.
  rewrite <- (kebabChain_trim (toLowerCase s)), trim_toLowerCase.
  rewrite !kebabChain_words, kebabBoundaries_snake, camelWords_snake.
  reflexivity.
Qed.

Lemma snake_converts_on_to_kebab_witness :
  toKebabCase (VString "hello_bigworld_2x") empty_store
    = toKebabCase (VString (toLowerCase " Hello  bigWorld 2x ")) empty_store.
Proof.
  apply (snake_converts_on_to_kebab " Hello  bigWorld 2x " empty_store
           "hello_bigworld_2x" empty_store).
  reflexivity.
Defined.

(** ** The boundaries of [toKebabCase] *)

Lemma remove_hyphens_hyphenate p q s :
  remove_all is_hyphen (hyphenate p q s) = remove_all is_hyphen s.
Proof.
  assert (H : forall n s, String.length s <= n ->
                remove_all is_hyphen (hyphenate p q s) = remove_all is_hyphen s).
  { induction n as [|n IH]; intros [|a [|b t]] Hn; try reflexivity;
      try (simpl in Hn; lia).
    rewrite hyphenate_cons2. destruct (p a && q b).
    - cbn [remove_all]. change (is_hyphen "-") with true. cbn iota.
      rewrite IH by (simpl in Hn; lia). reflexivity.
    - cbn [remove_all]. rewrite (IH (String b t)) by (simpl in *; lia).
      reflexivity. }
  apply (H (String.length s)). lia.
Qed.

(** X18.  The three first replacements of [toKebabCase] only put hyphens
    in: without its hyphens the text is the input without its hyphens.
    After them no lower-case letter is followed by an upper-case one, and
    no letter is next to a digit. *)
Theorem kebab_boundaries_marked s :
  remove_all is_hyphen (kebabBoundaries s) = remove_all is_hyphen s /\
  no_pair is_lower is_upper (kebabBoundaries s) = true /\
  no_pair is_letter is_digit (kebabBoundaries s) = true /\
  no_pair is_digit is_letter (kebabBoundaries s) = true.
Proof.
  unfold kebabBoundaries. split; [rewrite !remove_hyphens_hyphenate; reflexivity|].
  split; [|split].
  - do 2 (apply hyphenate_keeps_no_pair; [reflexivity | reflexivity |]).
    apply hyphenate_no_pair_left; [reflexivity | reflexivity |].
    intros c Hc. destruct (is_lower c) eqn:E; [|reflexivity].
    revert Hc E. clear. each_char c.
  - apply hyphenate_keeps_no_pair; [reflexivity | reflexivity |].
    apply hyphenate_no_pair_left; [reflexivity | reflexivity |].
    exact digit_not_letter.
  - apply hyphenate_no_pair_left; [reflexivity | reflexivity |].
    exact letter_not_digit.
Qed.

(** ** Special characters *)

Lemma has_alnum_sanitized s : has_alnum (remove_all is_special s) = has_alnum s.
Proof.
  unfold has_alnum, none_of. f_equal.
  induction s as [|c s IH]; [reflexivity|]. cbn [remove_all all_chars].
  destruct (is_special c) eqn:E; [|cbn [all_chars]; rewrite IH; reflexivity].
  rewrite IH. destruct (is_alnum c) eqn:A; [|reflexivity].
  rewrite (alnum_not_special c A) in E. discriminate.
Qed.

Lemma camelWords_sanitized s : camelWords (remove_all is_special s) = camelWords s.
Proof.
  unfold camelWords.
  rewrite (remove_all_none is_special (remove_all is_special s))
    by apply remove_all_clean.
  reflexivity.
Qed.

(** X19.  On a string that has a letter or digit, [toCamelCase] and
    [toDotCase] ignore the special characters, the ones that are neither
    letters, digits, underscores, white space nor hyphens: the string
    without them gives the same result. *)
Theorem special_characters_ignored s st :
  has_alnum s = true ->
  toCamelCase (VString (remove_all is_special s)) st = toCamelCase (VString s) st /\
  toDotCase (VString (remove_all is_special s)) st = toDotCase (VString s) st.
Proof.
  intros Ha. pose proof Ha as Ha'. rewrite <- has_alnum_sanitized in Ha'.
  rewrite !toCamelCase_string, !toDotCase_string.
  change (dotWords (remove_all is_special s))
    with (camelWords (remove_all is_special s)).
  change (dotWords s) with (camelWords s).
  fold (is_blank (remove_all is_special s)) (is_blank s).
  rewrite (has_alnum_not_blank _ Ha'), (has_alnum_not_blank _ Ha),
    camelWords_sanitized.
  split; reflexivity.
Qed.

Lemma special_characters_ignored_witness :
  toCamelCase (VString "hello world test") empty_store
    = toCamelCase (VString "hello, world! (test)") empty_store /\
  toDotCase (VString "hello world test") empty_store
    = toDotCase (VString "hello, world! (test)") empty_store.
Proof.
  apply (special_characters_ignored "hello, world! (test)" empty_store).
  reflexivity.
Defined.

(** Without a letter or digit the failure is not the same. *)
Lemma special_characters_alone :
  toCamelCase (VString "!") empty_store = (Throw NoValidCharacters, empty_store) /\
  toCamelCase (VString (remove_all is_special "!")) empty_store
    = (Throw EmptyInput, empty_store).
Proof. split; reflexivity. Qed.

(** ** [toCamelCase] next to [toDotCase] *)

Lemma lower_upper_char c : lower_char (upper_char c) = lower_char c.
Proof. each_char c. Qed.

Lemma toLowerCase_camelWord w i : toLowerCase (camelWord w i) = toLowerCase w.
Proof.
  destruct i as [|i]; [apply toLowerCase_idem|].
  rewrite camelWord_succ. destruct w as [|c t]; [reflexivity|].
  unfold toLowerCase. simpl. rewrite lower_upper_char. f_equal.
  apply toLowerCase_idem.
Qed.

Lemma map_toLowerCase_mapi i ws :
  map toLowerCase (mapi_from camelWord i ws) = map toLowerCase ws.
Proof.
  revert i. induction ws as [|w ws IH]; intros i; [reflexivity|].
  cbn [mapi_from map]. rewrite toLowerCase_camelWord, IH. reflexivity.
Qed.

(** X20.  When [toCamelCase] and [toDotCase] return on the same string,
    the first output in lower case is the second without its dots: both
    render the same words. *)
Theorem camel_is_dot_without_dots s st c st1 d st2 :
  toCamelCase (VString s) st = (Return c, st1) ->
  toDotCase (VString s) st = (Return d, st2) ->
  toLowerCase c = remove_all is_dot d.
Proof.
  rewrite toCamelCase_string, toDotCase_string.
  change (dotWords s) with (camelWords s). intros Hc Hd.
  destruct (all_chars is_space s); [discriminate|].
  destruct (is_empty_list (camelWords s)); [discriminate|].
  injection Hc as <- _. injection Hd as <- _.
  rewrite (toLowerCase_join_sep "" _ eq_refl). unfold mapi.
  rewrite map_toLowerCase_mapi. symmetry.
  apply remove_all_join; [reflexivity|].
  generalize (lowered_words_alnum s). apply Forall_impl. intros w.
  apply all_chars_weaken. intros x Hx. unfold none_of.
  rewrite (alnum_not_dot x Hx). reflexivity.
Qed.

Lemma camel_is_dot_without_dots_witness :
  toLowerCase "helloBigWorld" = remove_all is_dot "hello.big.world".
Proof.
  apply (camel_is_dot_without_dots "Hello big_WORLD" empty_store
           "helloBigWorld" empty_store "hello.big.world" empty_store);
    reflexivity.
Defined.

(** ** The words of [toCamelCase], on every string *)

Lemma split_cons_word p b c t :
  p c = false ->
  split_from p b (String c t) = cons_head (String c "") (split_from p false t).
Proof.
  intros Hc. cbn [split_from]. rewrite Hc.
  destruct (split_from p false t); reflexivity.
Qed.

Lemma cons_head_app r a l : cons_head r (cons_head a l) = cons_head (r ++ a) l.
Proof. destruct l; simpl; rewrite ?append_assoc; reflexivity. Qed.

Lemma cons_head_nothing l : l <> [] -> cons_head "" l = l.
Proof. destruct l; [contradiction | reflexivity]. Qed.

Lemma sanitized_pieces_flag p t :
  filter nonempty (map (remove_all is_special) (split_from p true t)) =
  filter nonempty (map (remove_all is_special) (split_from p false t)).
Proof. destruct t as [|c t]; [reflexivity|]. simpl. destruct (p c); reflexivity. Qed.

(** Removing the special characters and splitting at the separators gives
    the pieces that splitting first and removing them in each piece
    gives: a special character is no boundary. *)
Lemma split_sanitized r t :
  filter nonempty
    (cons_head (remove_all is_special r)
       (split_from is_separator false (remove_all is_special t))) =
  filter nonempty
    (map (remove_all is_special)
       (cons_head r (split_from is_separator false t))).
Proof.
  revert r. induction t as [|c t IH]; intros r.
  - simpl. rewrite !append_empty_r. reflexivity.
  - destruct (is_separator c) eqn:Hs.
    + pose proof (separator_not_special c Hs) as Hsp.
      cbn [remove_all]. rewrite Hsp. cbn [split_from]. rewrite Hs.
      cbn [cons_head map filter]. rewrite !append_empty_r.
      rewrite pieces_flag, sanitized_pieces_flag.
      specialize (IH ""). cbn [remove_all] in IH.
      rewrite !cons_head_nothing in IH by apply split_from_not_nil.
      rewrite IH. reflexivity.
    + rewrite (split_cons_word is_separator false c t Hs), cons_head_app.
      cbn [remove_all]. destruct (is_special c) eqn:Hsp.
      * rewrite <- IH, remove_all_app. cbn [remove_all]. rewrite Hsp.
        rewrite append_empty_r. reflexivity.
      * rewrite (split_cons_word is_separator false c _ Hs), cons_head_app.
        rewrite <- IH, remove_all_app. cbn [remove_all]. rewrite Hsp.
        reflexivity.
Qed.

Lemma camelWords_pieces s :
  camelWords s =
  filter nonempty (map (remove_all is_special) (split is_separator s)).
Proof.
  unfold camelWords, split. pose proof (split_sanitized "" s) as H.
  cbn [remove_all] in H.
  rewrite !cons_head_nothing in H by apply split_from_not_nil. exact H.
Qed.

Lemma filter_map_filter (g : string -> string) l :
  g "" = "" ->
  filter nonempty (map g l) = filter nonempty (map g (filter nonempty l)).
Proof.
  intros Hg. induction l as [|w l IH]; [reflexivity|]. cbn [map filter].
  destruct w as [|c t].
  - rewrite Hg. exact IH.
  - cbn [nonempty String.length Nat.ltb Nat.leb map filter]. rewrite IH.
    reflexivity.
Qed.

Lemma piece_no_separator w :
  is_a_piece w = true -> all_chars (none_of is_separator) w = true.
Proof. unfold is_a_piece. intros H. apply andb_true_iff in H. tauto. Qed.

Lemma piece_nonempty w : is_a_piece w = true -> is_empty w = false.
Proof.
  unfold is_a_piece. intros H. apply andb_true_iff in H as [H _].
  apply negb_true_iff in H. exact H.
Qed.

Lemma pieces_of_a_text pre p0 rest post :
  all_chars is_separator pre = true ->
  pieces_between_separators p0 rest = true ->
  all_chars is_separator post = true ->
  filter nonempty (split is_separator (pre ++ phrase p0 rest ++ post)) =
  p0 :: map snd rest.
Proof.
  intros Hpre Hwf Hpost. unfold split.
  rewrite (pieces_leading_run is_separator _ pre Hpre).
  unfold pieces_between_separators in Hwf.
  apply andb_true_iff in Hwf as [Hp0 Hrest].
  apply (pieces_phrase is_separator is_a_piece piece_no_separator piece_nonempty);
    assumption.
Qed.

Lemma camelRendering_mapi words :
  join "" (mapi camelWord words) = camelRendering words.
Proof.
  destruct words as [|w0 ws]; [reflexivity|]. unfold mapi. cbn [mapi_from].
  rewrite join_cons_empty, (mapi_from_succ camelWord capitalized 0 _ camelWord_succ).
  reflexivity.
Qed.

Lemma toCamelCase_on_every_string s st :
  toCamelCase (VString s) st =
  if is_blank s then (Throw EmptyInput, st)
  else if is_empty_list
            (filter nonempty
               (map (remove_all is_special) (split is_separator s)))
       then (Throw NoValidCharacters, st)
       else (Return
               (camelRendering
                  (filter nonempty
                     (map (remove_all is_special) (split is_separator s)))),
             st).
Proof.
  rewrite toCamelCase_string, <- camelWords_pieces, camelRendering_mapi.
  reflexivity.
Qed.

(** C6: [toCamelCase] splits at the runs of white space, underscores and
    hyphens, one boundary per run, and nowhere else.  On every string its
    words are the pieces between these runs, each without its special
    characters, the pieces left empty dropped: neither a special character
    nor a change of case is a boundary, and ["HelloWorld"] is one word.
    The first word is put in lower case, the others with their first
    character in upper case and the rest in lower case, and nothing
    stands between them.  The examples of the source evaluate as
    documented. *)
Theorem toCamelCase_renders_words st :
  (forall s,
     toCamelCase (VString s) st =
     if is_blank s then (Throw EmptyInput, st)
     else if is_empty_list
               (filter nonempty
                  (map (remove_all is_special) (split is_separator s)))
          then (Throw NoValidCharacters, st)
          else (Return
                  (camelRendering
                     (filter nonempty
                        (map (remove_all is_special) (split is_separator s)))),
                st)) /\
  (forall pre p0 rest post,
     all_chars is_separator pre = true ->
     pieces_between_separators p0 rest = true ->
     all_chars is_separator post = true ->
     filter nonempty
       (map (remove_all is_special)
          (split is_separator (pre ++ phrase p0 rest ++ post))) =
     filter nonempty (map (remove_all is_special) (p0 :: map snd rest))) /\
  (forall pre w0 rest post,
     all_chars is_separator pre = true ->
     well_formed_phrase w0 rest = true ->
     all_chars is_separator post = true ->
     camelWords (pre ++ phrase w0 rest ++ post) = w0 :: map snd rest /\
     toCamelCase (VString (pre ++ phrase w0 rest ++ post)) st =
     (Return (toLowerCase w0 ++ join "" (map capitalized (map snd rest))), st)) /\
  camelWords "HelloWorld" = ["HelloWorld"] /\
  toCamelCase (VString "HelloWorld") st = (Return "helloworld", st) /\
  toCamelCase (VString "foo!bar") st = (Return "foobar", st) /\
  toCamelCase (VString "hello world") st = (Return "helloWorld", st) /\
  toCamelCase (VString "hello_world") st = (Return "helloWorld", st) /\
  toCamelCase (VString "hello-world") st = (Return "helloWorld", st) /\
  toCamelCase (VString "hello__world") st = (Return "helloWorld", st) /\
  toCamelCase (VString "hello world! test") st = (Return "helloWorldTest", st).
Proof.
  split; [intros s; apply toCamelCase_on_every_string|].
  split.
  { intros pre p0 rest post Hpre Hwf Hpost.
    rewrite (filter_map_filter (remove_all is_special)) by reflexivity.
    rewrite (pieces_of_a_text pre p0 rest post Hpre Hwf Hpost).
    reflexivity. }
  split; [|repeat split; reflexivity].
  intros pre w0 rest post Hpre Hwf Hpost. split.
  - apply camelWords_phrase; assumption.
  - apply toCamelCase_phrase; assumption.
Qed.

Lemma toCamelCase_renders_words_witness :
  filter nonempty
    (map (remove_all is_special)
       (split is_separator " user's_-fullName  (2nd)__!!-ROW- ")) =
  ["users"; "fullName"; "2nd"; "ROW"] /\
  camelWords " user_-fullName  2nd__ROW- " = ["user"; "fullName"; "2nd"; "ROW"] /\
  toCamelCase (VString " user_-fullName  2nd__ROW- ") empty_store =
  (Return "userFullname2ndRow", empty_store).
Proof.
  destruct (toCamelCase_renders_words empty_store) as (_ & Hpieces & Hwords & _).
  split.
  - apply (Hpieces " " "user's"
             [("_-", "fullName"); ("  ", "(2nd)"); ("__", "!!"); ("-", "ROW")] "- ");
      reflexivity.
  - apply (Hwords " " "user"
             [("_-", "fullName"); ("  ", "2nd"); ("__", "ROW")] "- ");
      reflexivity.
Defined.
